(** * Render pass of the graphics platform: model and properties

    A shallow embedding of [src/platform/graphics/render-pass.js]: the two
    attachment-operation value classes, the [RenderPass] node with its
    initialisation, its clear mutators and its [render] protocol.

    Conventions of the embedding.
    - A JavaScript object is a record; a method takes the receiver [this] and
      returns the receiver after the call (explicit state passing).
    - A method that can raise a [TypeError] returns [option]: [None] is the
      raised exception, [Some this'] the normal return.
    - A reference that can be [undefined], [null] or an object is a [ref].
    - Sample counts and the render-pass counter are integers ([Z]); clear
      values (colour components, depth, stencil) are only stored and copied
      by this code, never computed with, and are carried as rationals ([Q]).
    - [colorArrayOps] is typed [Array<ColorAttachmentOps>] in the source and
      is a [list]; every element is owned by the array that holds it (each is
      allocated by [init] and stored in one slot), so a write through the
      local alias [colorOps] is a write to that slot. *)

From Stdlib Require Import ZArith QArith String.
From stdpp Require Import base option list.

Local Open Scope Z_scope.

(** ** JavaScript values used by the pass *)

(** A reference: [undefined], [null], or an object. *)
Inductive ref (A : Type) : Type :=
| undefined
| null
| obj (a : A).
Arguments undefined {A}.
Arguments null {A}.
Arguments obj {A} a.

(** [x || null] on a reference typed as an object: the falsy cases are
    [undefined] and [null]. *)
Definition or_null {A} (x : ref A) : ref A :=
  match x with
  | obj a => obj a
  | _ => null
  end.

(** [x !== undefined]. *)
Definition is_defined {A} (x : ref A) : bool :=
  match x with
  | undefined => false
  | _ => true
  end.

(** [i < n] where [n] may be [undefined]: the comparison with [undefined]
    (which converts to NaN) is false. *)
Definition js_lt (i : nat) (n : option nat) : bool :=
  match n with
  | Some m => Nat.ltb i m
  | None => false
  end.

(** Number of iterations of [for (let i = 0; i < n; i++)], [n] constant in
    the body: [n] when it is a number, none when it is [undefined]. *)
Definition iterations (n : option nat) : nat := default 0%nat n.

(** [for (let i = start; i < start + count; i++) body(i)] over a state, in the
    exception monad: the first raised exception ends the loop. *)
Fixpoint for_range {S : Type} (start count : nat)
    (body : nat → S → option S) (s : S) : option S :=
  match count with
  | O => Some s
  | Datatypes.S count' => body start s ≫= for_range (Datatypes.S start) count' body
  end.

(** [arr[i] = v] on an array: an index inside the array overwrites the slot,
    the index [arr.length] appends.  (An index past the end would leave holes
    in a JavaScript array; no write of this file goes there, see
    [init_loop_spec].) *)
Definition array_set {A} (i : nat) (v : A) (arr : list A) : list A :=
  if decide (i < length arr)%nat then <[i:=v]> arr else arr ++ [v].

(** ** Collaborators *)

Module Color.
Record t : Type := mk { r : Q; g : Q; b : Q; a : Q }.

(** Modelled from the spec: [Color.copy] lives in [core/math/color.js],
    which is not part of the sources at hand; the spec asks for a
    "field-wise copy of a clear color into clearValue". *)
Definition copy (this rhs : t) : t :=
  {| r := r rhs; g := g rhs; b := b rhs; a := a rhs |}.
End Color.

(** A colour buffer of a render target: the pass reads its [mipmaps] flag. *)
Module Texture.
Record t : Type := mk { mipmaps : bool }.
End Texture.

(** The render target, as far as the pass reads it.  [_colorBuffers] is
    [None] when the target has no such property (a depth-only target). *)
Module RenderTarget.
Record t : Type := mk {
  samples : Z;
  _colorBuffers : option (list Texture.t)
}.
End RenderTarget.

(** The graphics device, as far as the pass reads and writes it. *)
Module GraphicsDevice.
Record t : Type := mk {
  samples : Z;
  renderPassIndex : Z
}.

Definition set_renderPassIndex (v : Z) (d : t) : t :=
  {| samples := samples d; renderPassIndex := v |}.
End GraphicsDevice.

(** ** Attachment operations *)

Module ColorAttachmentOps.
Record t : Type := mk {
  clearValue : Color.t;
  clear : bool;
  store : bool;
  resolve : bool;
  mipmaps : bool
}.

(** [new ColorAttachmentOps()]: the field initialisers. *)
Definition new : t :=
  {| clearValue := Color.mk 0 0 0 1;
     clear := false;
     store := false;
     resolve := true;
     mipmaps := false |}.

Definition set_clearValue (v : Color.t) (o : t) : t :=
  {| clearValue := v; clear := clear o; store := store o;
     resolve := resolve o; mipmaps := mipmaps o |}.
Definition set_clear (v : bool) (o : t) : t :=
  {| clearValue := clearValue o; clear := v; store := store o;
     resolve := resolve o; mipmaps := mipmaps o |}.
Definition set_store (v : bool) (o : t) : t :=
  {| clearValue := clearValue o; clear := clear o; store := v;
     resolve := resolve o; mipmaps := mipmaps o |}.
Definition set_resolve (v : bool) (o : t) : t :=
  {| clearValue := clearValue o; clear := clear o; store := store o;
     resolve := v; mipmaps := mipmaps o |}.
Definition set_mipmaps (v : bool) (o : t) : t :=
  {| clearValue := clearValue o; clear := clear o; store := store o;
     resolve := resolve o; mipmaps := v |}.
End ColorAttachmentOps.

Module DepthStencilAttachmentOps.
Record t : Type := mk {
  clearDepthValue : Q;
  clearStencilValue : Q;
  clearDepth : bool;
  clearStencil : bool;
  storeDepth : bool;
  storeStencil : bool
}.

(** [new DepthStencilAttachmentOps()]: the field initialisers. *)
Definition new : t :=
  {| clearDepthValue := 1;
     clearStencilValue := 0;
     clearDepth := false;
     clearStencil := false;
     storeDepth := false;
     storeStencil := false |}.

Definition set_clearDepthValue (v : Q) (o : t) : t :=
  {| clearDepthValue := v; clearStencilValue := clearStencilValue o;
     clearDepth := clearDepth o; clearStencil := clearStencil o;
     storeDepth := storeDepth o; storeStencil := storeStencil o |}.
Definition set_clearStencilValue (v : Q) (o : t) : t :=
  {| clearDepthValue := clearDepthValue o; clearStencilValue := v;
     clearDepth := clearDepth o; clearStencil := clearStencil o;
     storeDepth := storeDepth o; storeStencil := storeStencil o |}.
Definition set_clearDepth (v : bool) (o : t) : t :=
  {| clearDepthValue := clearDepthValue o;
     clearStencilValue := clearStencilValue o;
     clearDepth := v; clearStencil := clearStencil o;
     storeDepth := storeDepth o; storeStencil := storeStencil o |}.
Definition set_clearStencil (v : bool) (o : t) : t :=
  {| clearDepthValue := clearDepthValue o;
     clearStencilValue := clearStencilValue o;
     clearDepth := clearDepth o; clearStencil := v;
     storeDepth := storeDepth o; storeStencil := storeStencil o |}.
End DepthStencilAttachmentOps.

(** A function value: a reference to code outside the pass.  What the code
    does when called is given by the environment of [render]. *)
Definition callback : Type := nat.

(** ** The render pass *)

Module RenderPass.
Record t : Type := mk {
  name : option string;
  renderTarget : ref RenderTarget.t;
  samples : Z;
  colorArrayOps : list ColorAttachmentOps.t;
  depthStencilOps : option DepthStencilAttachmentOps.t;
  requiresCubemaps : bool;
  fullSizeClearRect : bool;
  execute : option callback;
  before : option callback;
  after : option callback
}.

(** [new RenderPass(graphicsDevice, execute)]: the field initialisers, then
    the constructor body.  The device is a shared object; it is passed to
    the methods that use it instead of being stored in the record. *)
Definition constructor (execute : option callback) : t :=
  {| name := None;
     renderTarget := undefined;
     samples := 0;
     colorArrayOps := [];
     depthStencilOps := None;
     requiresCubemaps := true;
     fullSizeClearRect := true;
     execute := execute;
     before := None;
     after := None |}.

(** [get colorOps()]: [this.colorArrayOps[0]], [undefined] when empty. *)
Definition colorOps (this : t) : option ColorAttachmentOps.t :=
  colorArrayOps this !! 0%nat.

Definition set_renderTarget (v : ref RenderTarget.t) (p : t) : t :=
  {| name := name p; renderTarget := v; samples := samples p;
     colorArrayOps := colorArrayOps p; depthStencilOps := depthStencilOps p;
     requiresCubemaps := requiresCubemaps p;
     fullSizeClearRect := fullSizeClearRect p;
     execute := execute p; before := before p; after := after p |}.
Definition set_samples (v : Z) (p : t) : t :=
  {| name := name p; renderTarget := renderTarget p; samples := v;
     colorArrayOps := colorArrayOps p; depthStencilOps := depthStencilOps p;
     requiresCubemaps := requiresCubemaps p;
     fullSizeClearRect := fullSizeClearRect p;
     execute := execute p; before := before p; after := after p |}.
Definition set_colorArrayOps (v : list ColorAttachmentOps.t) (p : t) : t :=
  {| name := name p; renderTarget := renderTarget p; samples := samples p;
     colorArrayOps := v; depthStencilOps := depthStencilOps p;
     requiresCubemaps := requiresCubemaps p;
     fullSizeClearRect := fullSizeClearRect p;
     execute := execute p; before := before p; after := after p |}.
Definition set_depthStencilOps (v : option DepthStencilAttachmentOps.t)
    (p : t) : t :=
  {| name := name p; renderTarget := renderTarget p; samples := samples p;
     colorArrayOps := colorArrayOps p; depthStencilOps := v;
     requiresCubemaps := requiresCubemaps p;
     fullSizeClearRect := fullSizeClearRect p;
     execute := execute p; before := before p; after := after p |}.

(** A write to a field of the object in slot [i] of [colorArrayOps]. *)
Definition alter_colorOps (i : nat)
    (f : ColorAttachmentOps.t → ColorAttachmentOps.t) (p : t) : t :=
  set_colorArrayOps (alter f i (colorArrayOps p)) p.

(** [this.renderTarget?._colorBuffers?.[i].mipmaps], as the condition of
    an [if].  The last access is not optional: it raises when
    [_colorBuffers[i]] is [undefined]. *)
Definition target_mipmaps (this : t) (i : nat) : option bool :=
  match renderTarget this with
  | obj rt =>
      match RenderTarget._colorBuffers rt with
      | Some bufs =>
          match bufs !! i with
          | Some tex => Some (Texture.mipmaps tex)
          | None => None
          end
      | None => Some false
      end
  | _ => Some false
  end.

(** Body of the loop of [init], at index [i]. *)
Definition init_body (i : nat) (this : t) : option t :=
  (* const colorOps = new ColorAttachmentOps();
     this.colorArrayOps[i] = colorOps; *)
  let this :=
    set_colorArrayOps
      (array_set i ColorAttachmentOps.new (colorArrayOps this)) this in
  (* if (this.samples === 1) { colorOps.store = true;
                               colorOps.resolve = false; } *)
  let this :=
    if samples this =? 1
    then alter_colorOps i (ColorAttachmentOps.set_resolve false)
           (alter_colorOps i (ColorAttachmentOps.set_store true) this)
    else this in
  (* if (this.renderTarget?._colorBuffers?.[i].mipmaps)
       colorOps.mipmaps = true; *)
  m ← target_mipmaps this i;
  Some (if m : bool
        then alter_colorOps i (ColorAttachmentOps.set_mipmaps true) this
        else this).

(** [const numColorOps =
      renderTarget ? renderTarget._colorBuffers?.length : 1]. *)
Definition numColorOps (renderTarget : ref RenderTarget.t) : option nat :=
  match renderTarget with
  | obj rt => length <$> RenderTarget._colorBuffers rt
  | _ => Some 1%nat
  end.

Definition init (device : GraphicsDevice.t) (this : t)
    (renderTarget : ref RenderTarget.t) : option t :=
  (* this.renderTarget = renderTarget || null; *)
  let this := set_renderTarget (or_null renderTarget) this in
  (* this.samples = Math.max(this.renderTarget
       ? this.renderTarget.samples : this.device.samples, 1); *)
  let this :=
    set_samples
      (Z.max
         match RenderPass.renderTarget this with
         | obj rt => RenderTarget.samples rt
         | _ => GraphicsDevice.samples device
         end 1) this in
  (* this.depthStencilOps = new DepthStencilAttachmentOps(); *)
  let this := set_depthStencilOps (Some DepthStencilAttachmentOps.new) this in
  (* for (let i = 0; i < numColorOps; i++) { ... } *)
  for_range 0 (iterations (numColorOps renderTarget)) init_body this.

(** Body of the loop of [setClearColor], at index [i]. *)
Definition setClearColor_body (color : Color.t) (i : nat) (this : t)
    : option t :=
  (* const colorOps = this.colorArrayOps[i]; *)
  colorOps ← colorArrayOps this !! i;
  (* colorOps.clearValue.copy(color); colorOps.clear = true; *)
  Some (alter_colorOps i (ColorAttachmentOps.set_clear true)
          (alter_colorOps i
             (λ o, ColorAttachmentOps.set_clearValue
                     (Color.copy (ColorAttachmentOps.clearValue o) color) o)
             this)).

Definition setClearColor (color : Color.t) (this : t) : option t :=
  (* const count = this.colorArrayOps.length; *)
  let count := length (colorArrayOps this) in
  for_range 0 count (setClearColor_body color) this.

Definition setClearDepth (depthValue : Q) (this : t) : option t :=
  (* this.depthStencilOps.clearDepthValue = depthValue; *)
  ops ← depthStencilOps this;
  let ops := DepthStencilAttachmentOps.set_clearDepthValue depthValue ops in
  (* this.depthStencilOps.clearDepth = true; *)
  let ops := DepthStencilAttachmentOps.set_clearDepth true ops in
  Some (set_depthStencilOps (Some ops) this).

Definition setClearStencil (stencilValue : Q) (this : t) : option t :=
  (* this.depthStencilOps.clearStencilValue = stencilValue; *)
  ops ← depthStencilOps this;
  let ops :=
    DepthStencilAttachmentOps.set_clearStencilValue stencilValue ops in
  (* this.depthStencilOps.clearStencil = true; *)
  let ops := DepthStencilAttachmentOps.set_clearStencil true ops in
  Some (set_depthStencilOps (Some ops) this).
End RenderPass.


(** ** Execution: [render] *)

(** The three optional function slots of a pass. *)
Inductive slot : Type := Before | Execute | After.

(** The calls [render] makes into code outside the pass, in the order of the
    source: the GPU-marker helpers of [DebugGraphics], the debug-build hook
    [Debug.call] (which traces the pass through [log] and is stripped from
    release builds), the functions held by the pass, and the two device
    operations that bracket the pass. *)
Inductive call : Type :=
| pushGpuMarker (label : string)
| debugCall
| invoke (s : slot) (f : callback)
| startPass
| endPass
| popGpuMarker.

(** The objects [render] works on: the shared device, the pass itself
    ([this]) and whatever else the program holds ([ext]). *)
Module World.
Record t (Ext : Type) : Type := mk {
  device : GraphicsDevice.t;
  pass : RenderPass.t;
  ext : Ext
}.
Arguments mk {Ext}.
Arguments device {Ext}.
Arguments pass {Ext}.
Arguments ext {Ext}.

Definition set_device {Ext} (d : GraphicsDevice.t) (w : t Ext) : t Ext :=
  {| device := d; pass := pass w; ext := ext w |}.
End World.

(** Template-literal conversion of [this.name]. *)
Definition template (name : option string) : string :=
  match name with
  | Some s => s
  | None => "undefined"
  end.

Section Render.

(** State of the rest of the program. *)
Variable Ext : Type.

(** What a call into outside code does to the objects: [None] when it
    raises, otherwise the objects when it returns.  The functions held by
    the pass are closures and may write to the pass and to the device. *)
Variable extern : call → World.t Ext → option (World.t Ext).

(** A computation of [render]: from the objects, the calls it made (in
    order) and either a raised exception or a value with the objects. *)
Definition action (A : Type) : Type :=
  World.t Ext → list call * option (A * World.t Ext).

#[local] Instance action_ret : MRet action :=
  λ A a w, ([], Some (a, w)).

#[local] Instance action_bind : MBind action :=
  λ A B k m w,
    match m w with
    | (tr, Some (a, w')) =>
        match k a w' with
        | (tr', r) => (tr ++ tr', r)
        end
    | (tr, None) => (tr, None)
    end.

(** Read from the objects. *)
Definition reads {A} (f : World.t Ext → A) : action A :=
  λ w, ([], Some (f w, w)).

(** Write to the objects. *)
Definition update (f : World.t Ext → World.t Ext) : action () :=
  λ w, ([], Some ((), f w)).

(** Call outside code. *)
Definition external (c : call) : action () :=
  λ w, ([c], (λ w', ((), w')) <$> extern c w).

(** [f?.()]: call [f] unless it is [undefined]. *)
Definition optional_call (s : slot) (f : option callback) : action () :=
  match f with
  | Some f => external (invoke s f)
  | None => mret ()
  end.

(** [if (c) { m }]. *)
Definition when (c : bool) (m : action ()) : action () :=
  if c then m else mret ().

Definition render : action () :=
  (* const device = this.device;
     const realPass = this.renderTarget !== undefined; *)
  realPass ← reads (λ w, is_defined (RenderPass.renderTarget (World.pass w)));
  (* DebugGraphics.pushGpuMarker(device, `Pass:${this.name}`); *)
  name ← reads (λ w, RenderPass.name (World.pass w));
  _ ← external (pushGpuMarker ("Pass:" ++ template name));
  (* Debug.call(() => { this.log(device, device.renderPassIndex); }); *)
  _ ← external debugCall;
  (* this.before?.(); *)
  before ← reads (λ w, RenderPass.before (World.pass w));
  _ ← optional_call Before before;
  (* if (realPass) { device.startPass(this); } *)
  _ ← when realPass (external startPass);
  (* this.execute?.(); *)
  execute ← reads (λ w, RenderPass.execute (World.pass w));
  _ ← optional_call Execute execute;
  (* if (realPass) { device.endPass(this); } *)
  _ ← when realPass (external endPass);
  (* this.after?.(); *)
  after ← reads (λ w, RenderPass.after (World.pass w));
  _ ← optional_call After after;
  (* device.renderPassIndex++; *)
  _ ← update (λ w,
        World.set_device
          (GraphicsDevice.set_renderPassIndex
             (GraphicsDevice.renderPassIndex (World.device w) + 1)
             (World.device w)) w);
  (* DebugGraphics.popGpuMarker(device); *)
  external popGpuMarker.

End Render.


(** ** Debug trace: [log] *)

From Stdlib Require Import Ascii.
From stdpp Require Import pretty.

Local Open Scope Z_scope.

(** The trace channels [log] consults and writes to. *)
Inductive trace_channel : Type :=
| TRACEID_RENDER_PASS
| TRACEID_RENDER_PASS_DETAIL.

(** Truthiness of a reference ([!!x]): an object is truthy, [undefined] and
    [null] are not. *)
Definition is_object {A} (x : ref A) : bool :=
  match x with
  | obj _ => true
  | _ => false
  end.

(** [s.padEnd(n, ' ')]: [s] followed by spaces up to length [n], [s] itself
    when it is that long already.  (Lengths are counted in characters of the
    string as stored here, which is the JavaScript count on ASCII text.) *)
Definition padEnd (n : nat) (s : string) : string :=
  s +:+ string_of_list_ascii (replicate (n - String.length s) " "%char).

(** The back buffer of the device ([device.backBuffer]), as far as [log]
    reads it: a render target with its name, colour buffers, depth and
    stencil flags, and of its implementation object the two fields tested
    for being set. *)
Module BackBufferImpl.
Record t : Type := mk {
  assignedColorTexture : ref ();
  suppliedColorFramebuffer : ref ()
}.
End BackBufferImpl.

Module BackBuffer.
Record t : Type := mk {
  name : string;
  _colorBuffers : option (list Texture.t);
  depth : bool;
  stencil : bool;
  impl : BackBufferImpl.t
}.
End BackBuffer.

Module Log.

(** A call [Debug.trace(channel, message)]. *)
Definition line : Type := trace_channel * string.

(** [const rt = this.renderTarget === null
       ? this.renderTarget ?? device.backBuffer : null]. *)
Definition rt (backBuffer : ref BackBuffer.t) (this : RenderPass.t)
    : ref BackBuffer.t :=
  match RenderPass.renderTarget this with
  | null => backBuffer
  | _ => null
  end.

(** [const isBackBuffer = !!rt?.impl.assignedColorTexture
       || rt?.impl.suppliedColorFramebuffer !== undefined]. *)
Definition isBackBuffer (rt : ref BackBuffer.t) : bool :=
  match rt with
  | obj b =>
      is_object (BackBufferImpl.assignedColorTexture (BackBuffer.impl b))
      || is_defined (BackBufferImpl.suppliedColorFramebuffer (BackBuffer.impl b))
  | _ => false
  end.

(** [const numColor = rt?._colorBuffers?.length ?? (isBackBuffer ? 1 : 0)]. *)
Definition numColor (rt : ref BackBuffer.t) : nat :=
  let fallback := if isBackBuffer rt then 1%nat else 0%nat in
  match rt with
  | obj b =>
      match BackBuffer._colorBuffers b with
      | Some bufs => length bufs
      | None => fallback
      end
  | _ => fallback
  end.

(** [rt?.depth] and [rt?.stencil], as conditions. *)
Definition hasDepth (rt : ref BackBuffer.t) : bool :=
  match rt with
  | obj b => BackBuffer.depth b
  | _ => false
  end.

Definition hasStencil (rt : ref BackBuffer.t) : bool :=
  match rt with
  | obj b => BackBuffer.stencil b
  | _ => false
  end.

(** [const rtInfo = rt === undefined ? '' : ` RT: ${...} ` + ...]. *)
Definition rtInfo (rt : ref BackBuffer.t) (this : RenderPass.t) : string :=
  match rt with
  | undefined => ""
  | _ =>
      " RT: " +:+ match rt with
                  | obj b => BackBuffer.name b
                  | _ => "NULL"
                  end +:+ " "
      +:+ (if (0 <? numColor rt)%nat
           then "[Color"
                +:+ (if (1 <? numColor rt)%nat
                     then " x " +:+ pretty (numColor rt)
                     else "")
                +:+ "]"
           else "")
      +:+ (if hasDepth rt then "[Depth]" else "")
      +:+ (if hasStencil rt then "[Stencil]" else "")
      +:+ (if 0 <? RenderPass.samples this
           then " samples: " +:+ pretty (RenderPass.samples this)
           else "")
  end.

(** The message of the detail line of slot [i]. *)
Definition color_line (i : nat) (colorOps : ColorAttachmentOps.t) : string :=
  "    color[" +:+ pretty i +:+ "]: "
  +:+ (if ColorAttachmentOps.clear colorOps then "clear" else "load")
  +:+ "->"
  +:+ (if ColorAttachmentOps.store colorOps then "store" else "discard")
  +:+ " "
  +:+ (if ColorAttachmentOps.resolve colorOps then "resolve " else "")
  +:+ (if ColorAttachmentOps.mipmaps colorOps then "mipmaps " else "").

(** [for (let i = start; i < start + count; i++)] over the slots: each slot
    is read and traced; reading a flag of a missing slot raises, after the
    lines traced before it. *)
Fixpoint color_lines (arr : list ColorAttachmentOps.t) (start count : nat)
    : list line * option () :=
  match count with
  | O => ([], Some ())
  | S count' =>
      match arr !! start with
      | Some colorOps =>
          match color_lines arr (S start) count' with
          | (out, r) =>
              ((TRACEID_RENDER_PASS_DETAIL, color_line start colorOps) :: out,
               r)
          end
      | None => ([], None)
      end
  end.

(** The lines for the depth and the stencil operations. *)
Definition depth_stencil_lines (rt : ref BackBuffer.t) (this : RenderPass.t)
    : list line :=
  match RenderPass.depthStencilOps this with
  | Some ds =>
      (if hasDepth rt
       then [(TRACEID_RENDER_PASS_DETAIL,
              "    depthOps: "
              +:+ (if DepthStencilAttachmentOps.clearDepth ds
                   then "clear" else "load")
              +:+ "->"
              +:+ (if DepthStencilAttachmentOps.storeDepth ds
                   then "store" else "discard"))]
       else [])
      ++ (if hasStencil rt
          then [(TRACEID_RENDER_PASS_DETAIL,
                 "    stencOps: "
                 +:+ (if DepthStencilAttachmentOps.clearStencil ds
                      then "clear" else "load")
                 +:+ "->"
                 +:+ (if DepthStencilAttachmentOps.storeStencil ds
                      then "store" else "discard"))]
          else [])
  | None => []
  end.

(** [log(device, index)]: the calls of [Debug.trace] it makes, in order, and
    whether it returns ([Some ()]) or raises a [TypeError] ([None]).
    [tracing] is [Tracing.get], [backBuffer] is [device.backBuffer]. *)
Definition log (tracing : trace_channel → bool)
    (backBuffer : ref BackBuffer.t) (this : RenderPass.t) (index : Z)
    : list line * option () :=
  if tracing TRACEID_RENDER_PASS || tracing TRACEID_RENDER_PASS_DETAIL then
    let rt := rt backBuffer this in
    (* Debug.trace(TRACEID_RENDER_PASS,
         `${index.toString().padEnd(2, ' ')}: ${this.name.padEnd(20, ' ')}`
         + rtInfo.padEnd(30)); *)
    match RenderPass.name this with
    | None => ([], None)
    | Some name =>
        let header :=
          (TRACEID_RENDER_PASS,
           padEnd 2 (pretty index) +:+ ": " +:+ padEnd 20 name
           +:+ padEnd 30 (rtInfo rt this)) in
        (* for (let i = 0; i < numColor; i++) { ... } *)
        match color_lines (RenderPass.colorArrayOps this) 0 (numColor rt) with
        | (out, Some _) =>
            (* if (this.depthStencilOps) { ... } *)
            (header :: out ++ depth_stencil_lines rt this, Some ())
        | (out, None) => (header :: out, None)
        end
    end
  else ([], Some ()).

End Log.

(** * Derived notions used to state the properties *)

(** The object [init] leaves in a slot it allocates, for the sample count of
    the pass and the [mipmaps] flag of the colour buffer of that slot. *)
Definition allocated_ops (samples : Z) (mip : bool) : ColorAttachmentOps.t :=
  {| ColorAttachmentOps.clearValue := Color.mk 0 0 0 1;
     ColorAttachmentOps.clear := false;
     ColorAttachmentOps.store := samples =? 1;
     ColorAttachmentOps.resolve := negb (samples =? 1);
     ColorAttachmentOps.mipmaps := mip |}.

(** The [mipmaps] flags [init] sees, one per slot it allocates: those of the
    colour buffers of a target, none for a target without [_colorBuffers],
    one unset flag for the default framebuffer. *)
Definition mip_flags (renderTarget : ref RenderTarget.t) : list bool :=
  match renderTarget with
  | obj rt =>
      match RenderTarget._colorBuffers rt with
      | Some bufs => Texture.mipmaps <$> bufs
      | None => []
      end
  | _ => [false]
  end.

(** The sample count [init] computes. *)
Definition effective_samples (device : GraphicsDevice.t)
    (renderTarget : ref RenderTarget.t) : Z :=
  Z.max
    match renderTarget with
    | obj rt => RenderTarget.samples rt
    | _ => GraphicsDevice.samples device
    end 1.

(** A [ColorAttachmentOps] marked for clearing to [color]: what
    [setClearColor] makes of a slot. *)
Definition with_clear (color : Color.t) (o : ColorAttachmentOps.t)
    : ColorAttachmentOps.t :=
  {| ColorAttachmentOps.clearValue := color;
     ColorAttachmentOps.clear := true;
     ColorAttachmentOps.store := ColorAttachmentOps.store o;
     ColorAttachmentOps.resolve := ColorAttachmentOps.resolve o;
     ColorAttachmentOps.mipmaps := ColorAttachmentOps.mipmaps o |}.

(** Two passes that agree on every field other than [depthStencilOps]. *)
Definition same_but_depthStencilOps (p p' : RenderPass.t) : Prop :=
  RenderPass.name p' = RenderPass.name p ∧
  RenderPass.renderTarget p' = RenderPass.renderTarget p ∧
  RenderPass.samples p' = RenderPass.samples p ∧
  RenderPass.colorArrayOps p' = RenderPass.colorArrayOps p ∧
  RenderPass.requiresCubemaps p' = RenderPass.requiresCubemaps p ∧
  RenderPass.fullSizeClearRect p' = RenderPass.fullSizeClearRect p ∧
  RenderPass.execute p' = RenderPass.execute p ∧
  RenderPass.before p' = RenderPass.before p ∧
  RenderPass.after p' = RenderPass.after p.

(** The call of an optional function: one call when the slot holds a
    function, none when it is [undefined]. *)
Definition slot_call (s : slot) (f : option callback) : list call :=
  match f with
  | Some f => [invoke s f]
  | None => []
  end.

(** A device operation that brackets a real pass. *)
Definition bracket (real : bool) (c : call) : list call :=
  if real then [c] else [].

(** The order of the calls of one [render]: [before], begin-pass when the
    pass is real, [execute], end-pass when the pass is real, [after], all
    between the marker push (and debug hook) and the marker pop. *)
Definition render_order (label : string) (real : bool)
    (before execute after : option callback) : list call :=
  [pushGpuMarker label; debugCall]
  ++ slot_call Before before
  ++ bracket real startPass
  ++ slot_call Execute execute
  ++ bracket real endPass
  ++ slot_call After after
  ++ [popGpuMarker].

(** The marker label of a pass. *)
Definition marker_label (this : RenderPass.t) : string :=
  "Pass:" ++ template (RenderPass.name this).

(** Outside code that never raises. *)
Definition never_raises {Ext}
    (extern : call → World.t Ext → option (World.t Ext)) : Prop :=
  ∀ c w, is_Some (extern c w).

(** Outside code that leaves a part [proj] of the objects as it is. *)
Definition preserves {Ext A}
    (extern : call → World.t Ext → option (World.t Ext))
    (proj : World.t Ext → A) : Prop :=
  ∀ c w w', extern c w = Some w' → proj w' = proj w.

(** The three function slots of the pass. *)
Definition slots {Ext} (w : World.t Ext)
    : option callback * option callback * option callback :=
  (RenderPass.before (World.pass w),
   RenderPass.execute (World.pass w),
   RenderPass.after (World.pass w)).

(** The render-pass counter of the device. *)
Definition counter {Ext} (w : World.t Ext) : Z :=
  GraphicsDevice.renderPassIndex (World.device w).

(** The attachment operations of the pass. *)
Definition attachment_ops {Ext} (w : World.t Ext)
    : list ColorAttachmentOps.t * option DepthStencilAttachmentOps.t :=
  (RenderPass.colorArrayOps (World.pass w),
   RenderPass.depthStencilOps (World.pass w)).

(** A clear declaration: one call of [setClearColor], [setClearDepth] or
    [setClearStencil]. *)
Inductive mutator : Type :=
| SetClearColor (color : Color.t)
| SetClearDepth (depthValue : Q)
| SetClearStencil (stencilValue : Q).

Definition apply_mutator (m : mutator) (this : RenderPass.t)
    : option RenderPass.t :=
  match m with
  | SetClearColor color => RenderPass.setClearColor color this
  | SetClearDepth depthValue => RenderPass.setClearDepth depthValue this
  | SetClearStencil stencilValue => RenderPass.setClearStencil stencilValue this
  end.

(** A sequence of clear declarations, made in order; the first exception
    ends it. *)
Fixpoint apply_mutators (ms : list mutator) (this : RenderPass.t)
    : option RenderPass.t :=
  match ms with
  | [] => Some this
  | m :: ms' => apply_mutator m this ≫= apply_mutators ms'
  end.

(** The flags of a slot that the clear declarations do not write. *)
Definition store_flags (o : ColorAttachmentOps.t) : bool * bool * bool :=
  (ColorAttachmentOps.store o, ColorAttachmentOps.resolve o,
   ColorAttachmentOps.mipmaps o).

(** [n] calls of [render] in a row: the calls made, in order, and the
    objects after the last one, or the exception that ended the row. *)
Fixpoint render_times {Ext : Type}
    (extern : call → World.t Ext → option (World.t Ext)) (n : nat)
    (w : World.t Ext) : list call * option (() * World.t Ext) :=
  match n with
  | O => ([], Some ((), w))
  | S n' =>
      match render Ext extern w with
      | (tr, Some (_, w')) =>
          match render_times extern n' w' with
          | (tr', r) => (tr ++ tr', r)
          end
      | (tr, None) => (tr, None)
      end
  end.

(** The objects after one [render] that met no-op outside code: the counter
    of the device advanced by one. *)
Definition counted {Ext} (w : World.t Ext) : World.t Ext :=
  World.set_device
    (GraphicsDevice.set_renderPassIndex
       (GraphicsDevice.renderPassIndex (World.device w) + 1)
       (World.device w)) w.

(** The flags of [depthStencilOps] that the clear declarations do not
    write. *)
Definition depth_store_flags (o : DepthStencilAttachmentOps.t) : bool * bool :=
  (DepthStencilAttachmentOps.storeDepth o,
   DepthStencilAttachmentOps.storeStencil o).

(** Two passes that differ at most in what is declared for clearing: the
    clear flags and clear values of the slots and of [depthStencilOps]. *)
Definition same_but_clears (p p' : RenderPass.t) : Prop :=
  RenderPass.name p' = RenderPass.name p ∧
  RenderPass.renderTarget p' = RenderPass.renderTarget p ∧
  RenderPass.samples p' = RenderPass.samples p ∧
  RenderPass.requiresCubemaps p' = RenderPass.requiresCubemaps p ∧
  RenderPass.fullSizeClearRect p' = RenderPass.fullSizeClearRect p ∧
  RenderPass.execute p' = RenderPass.execute p ∧
  RenderPass.before p' = RenderPass.before p ∧
  RenderPass.after p' = RenderPass.after p ∧
  store_flags <$> RenderPass.colorArrayOps p'
  = store_flags <$> RenderPass.colorArrayOps p ∧
  depth_store_flags <$> RenderPass.depthStencilOps p'
  = depth_store_flags <$> RenderPass.depthStencilOps p.

(** * Properties *)

(** ** Arrays and loops *)

Lemma js_lt_iterations (i : nat) (n : option nat) :
  js_lt i n = true ↔ (i < iterations n)%nat.
Proof.
  destruct n as [m|]; simpl.
  - apply Nat.ltb_lt.
  - split; [discriminate | lia].
Qed.

Lemma array_set_at_length {A} (pre rest : list A) (v : A) :
  array_set (length pre) v (pre ++ rest) = pre ++ v :: drop 1 rest.
Proof.
  unfold array_set. rewrite length_app.
  destruct rest as [|x rest]; simpl.
  - case_decide; [lia |]. by rewrite app_nil_r.
  - case_decide; [| lia].
    replace (length pre) with (length pre + 0)%nat at 1 by lia.
    by rewrite insert_app_r, drop_0.
Qed.

Lemma alter_at_length {A} (f : A → A) (pre : list A) (x : A) (rest : list A) :
  alter f (length pre) (pre ++ x :: rest) = pre ++ f x :: rest.
Proof.
  replace (length pre) with (length pre + 0)%nat at 1 by lia.
  by rewrite alter_app_r.
Qed.


(** ** [init] *)

Lemma mip_flags_length (renderTarget : ref RenderTarget.t) :
  length (mip_flags renderTarget)
  = iterations (RenderPass.numColorOps renderTarget).
Proof.
  destruct renderTarget as [| |rt]; simpl; try done.
  destruct (RenderTarget._colorBuffers rt); simpl; [apply length_fmap | done].
Qed.

Lemma target_mipmaps_flags (this : RenderPass.t)
    (renderTarget : ref RenderTarget.t) (i : nat) (m : bool) :
  RenderPass.renderTarget this = or_null renderTarget →
  mip_flags renderTarget !! i = Some m →
  RenderPass.target_mipmaps this i = Some m.
Proof.
  unfold RenderPass.target_mipmaps, mip_flags. intros ->.
  destruct renderTarget as [| |rt]; simpl.
  - destruct i; intros H; [by injection H as <- | done].
  - destruct i; intros H; [by injection H as <- | done].
  - destruct (RenderTarget._colorBuffers rt) as [bufs|]; simpl; [| done].
    rewrite list_lookup_fmap. by destruct (bufs !! i).
Qed.

(** One iteration at the index where the slots written so far end. *)
Lemma init_body_spec (this : RenderPass.t) (pre rest : list ColorAttachmentOps.t)
    (m : bool) :
  RenderPass.colorArrayOps this = pre ++ rest →
  RenderPass.target_mipmaps this (length pre) = Some m →
  RenderPass.init_body (length pre) this
  = Some (RenderPass.set_colorArrayOps
            (pre ++ allocated_ops (RenderPass.samples this) m :: drop 1 rest)
            this).
Proof.
  intros Harr Hm. unfold RenderPass.init_body.
  rewrite Harr, array_set_at_length.
  destruct this as [nm tgt s arr ds rc fs ex be af]; simpl in *.
  unfold RenderPass.alter_colorOps, RenderPass.target_mipmaps in *; simpl in *.
  destruct (s =? 1) eqn:Hs; simpl; rewrite ?alter_at_length; simpl;
    rewrite Hm; simpl; destruct m; simpl; rewrite ?alter_at_length;
    unfold allocated_ops, RenderPass.set_colorArrayOps; simpl;
    by rewrite Hs.
Qed.

(** The loop of [init], started at the index where a prefix [pre] of the
    array ends: it writes one slot per flag, at consecutive indices from
    [length pre] on (so never past the end of the array), and leaves the
    slots after them as they are. *)
Lemma init_loop_spec (ms : list bool) :
  ∀ (this : RenderPass.t) (pre rest : list ColorAttachmentOps.t),
    RenderPass.colorArrayOps this = pre ++ rest →
    (∀ j m, ms !! j = Some m →
            RenderPass.target_mipmaps this (length pre + j) = Some m) →
    for_range (length pre) (length ms) RenderPass.init_body this
    = Some (RenderPass.set_colorArrayOps
              (pre ++ (allocated_ops (RenderPass.samples this) <$> ms)
                   ++ drop (length ms) rest)
              this).
Proof.
  induction ms as [|m ms IH]; intros this pre rest Harr Hms; simpl.
  - rewrite drop_0, <- Harr. by destruct this.
  - rewrite (init_body_spec this pre rest m Harr).
    2:{ specialize (Hms 0%nat m eq_refl). by rewrite Nat.add_0_r in Hms. }
    simpl.
    set (this' := RenderPass.set_colorArrayOps _ this).
    specialize (IH this' (pre ++ [allocated_ops (RenderPass.samples this) m])
                  (drop 1 rest)).
    rewrite length_app in IH. simpl in IH.
    replace (length pre + 1)%nat with (S (length pre)) in IH by lia.
    rewrite IH.
    + f_equal. subst this'. destruct this; simpl.
      unfold RenderPass.set_colorArrayOps; simpl. f_equal.
      rewrite <- app_assoc. simpl. by rewrite drop_drop.
    + subst this'. simpl. by rewrite <- app_assoc.
    + intros j m' Hj. subst this'.
      specialize (Hms (S j) m' Hj).
      replace (length pre + S j)%nat with (S (length pre) + j)%nat in Hms by lia.
      by destruct this.
Qed.

(** [init] in closed form: it always returns, and the array it leaves is the
    freshly allocated slots followed by the slots of the old array beyond
    them. *)
Lemma init_eq (device : GraphicsDevice.t) (this : RenderPass.t)
    (renderTarget : ref RenderTarget.t) :
  RenderPass.init device this renderTarget
  = Some
      {| RenderPass.name := RenderPass.name this;
         RenderPass.renderTarget := or_null renderTarget;
         RenderPass.samples := effective_samples device renderTarget;
         RenderPass.colorArrayOps :=
           (allocated_ops (effective_samples device renderTarget)
              <$> mip_flags renderTarget)
           ++ drop (length (mip_flags renderTarget))
                (RenderPass.colorArrayOps this);
         RenderPass.depthStencilOps := Some DepthStencilAttachmentOps.new;
         RenderPass.requiresCubemaps := RenderPass.requiresCubemaps this;
         RenderPass.fullSizeClearRect := RenderPass.fullSizeClearRect this;
         RenderPass.execute := RenderPass.execute this;
         RenderPass.before := RenderPass.before this;
         RenderPass.after := RenderPass.after this |}.
Proof.
  unfold RenderPass.init. rewrite <- mip_flags_length.
  set (this1 := RenderPass.set_depthStencilOps _ _).
  pose proof (init_loop_spec (mip_flags renderTarget) this1 []
                (RenderPass.colorArrayOps this)) as H.
  simpl in H. rewrite H; clear H.
  - f_equal. subst this1. destruct this; simpl.
    unfold RenderPass.set_colorArrayOps, effective_samples; simpl.
    by destruct renderTarget.
  - subst this1. by destruct this.
  - intros j m Hj. apply (target_mipmaps_flags _ renderTarget); [| done].
    subst this1. by destruct this.
Qed.

Lemma init_colorArrayOps_length (device : GraphicsDevice.t)
    (this this' : RenderPass.t) (renderTarget : ref RenderTarget.t) :
  RenderPass.init device this renderTarget = Some this' →
  length (RenderPass.colorArrayOps this')
  = (iterations (RenderPass.numColorOps renderTarget)
       `max` length (RenderPass.colorArrayOps this))%nat.
Proof.
  rewrite init_eq. intros [= <-]. simpl.
  rewrite length_app, length_fmap, length_drop, mip_flags_length. lia.
Qed.

Lemma init_allocated_lookup (device : GraphicsDevice.t)
    (this this' : RenderPass.t) (renderTarget : ref RenderTarget.t) (i : nat) :
  RenderPass.init device this renderTarget = Some this' →
  (i < iterations (RenderPass.numColorOps renderTarget))%nat →
  ∃ m, RenderPass.colorArrayOps this' !! i
       = Some (allocated_ops (RenderPass.samples this') m).
Proof.
  rewrite init_eq. intros [= <-] Hi. simpl.
  rewrite <- mip_flags_length in Hi.
  destruct (lookup_lt_is_Some_2 _ _ Hi) as [m Hm].
  exists m. rewrite lookup_app_l by by rewrite length_fmap.
  by rewrite list_lookup_fmap, Hm.
Qed.

Lemma init_stale_lookup (device : GraphicsDevice.t)
    (this this' : RenderPass.t) (renderTarget : ref RenderTarget.t) (i : nat) :
  RenderPass.init device this renderTarget = Some this' →
  (iterations (RenderPass.numColorOps renderTarget) ≤ i)%nat →
  RenderPass.colorArrayOps this' !! i = RenderPass.colorArrayOps this !! i.
Proof.
  rewrite init_eq. intros [= <-] Hi. simpl.
  rewrite <- mip_flags_length in Hi.
  rewrite lookup_app_r by by rewrite length_fmap.
  rewrite length_fmap, lookup_drop. f_equal. lia.
Qed.

(** C1 does not hold of every slot of [colorArrayOps]: [init] with a
    two-buffer target of 4 samples, then [init(null)] on a device of 1
    sample, computes a sample count of 1 and leaves in slot 1 the object of
    the first call, with [store] unset and [resolve] set. *)
Lemma init_single_sample_rule_counterexample :
  ∃ this this',
    RenderPass.init (GraphicsDevice.mk 1 0) (RenderPass.constructor None)
      (obj (RenderTarget.mk 4 (Some [Texture.mk false; Texture.mk false])))
    = Some this ∧
    RenderPass.init (GraphicsDevice.mk 1 0) this null = Some this' ∧
    RenderPass.samples this' = 1 ∧
    RenderPass.colorArrayOps this' !! 1%nat
    = Some (ColorAttachmentOps.mk (Color.mk 0 0 0 1) false false true false) ∧
    ¬ Forall (λ ops, ColorAttachmentOps.store ops = true ∧
                     ColorAttachmentOps.resolve ops = false)
        (RenderPass.colorArrayOps this').
Proof.
  eexists _, _. split; [vm_compute; reflexivity |].
  split; [vm_compute; reflexivity |].
  split; [reflexivity |]. split; [reflexivity |].
  intros Hall. apply Forall_cons in Hall as [_ Hall].
  apply Forall_cons in Hall as [[Hstore _] _]. discriminate Hstore.
Qed.

(** C1, amended. After [init], every [ColorAttachmentOps] that this call
    allocated (slot [i] for each [i] below the number of colour buffers of
    the target supplied, none for a target without [_colorBuffers], slot 0
    when no target was supplied) is in [colorArrayOps] and follows the
    single-sample rule: with a computed sample count of 1 it has [store] set
    and [resolve] unset; with a sample count above 1 its [resolve] and
    [store] are the defaults (true and false).  The array then has as many
    slots as were allocated, or as it had before if that was more; when it
    held no more slots than were allocated before the call (a new pass holds
    none), the rule holds of every slot of [colorArrayOps]. *)
Theorem init_single_sample_rule (device : GraphicsDevice.t)
    (this : RenderPass.t) (renderTarget : ref RenderTarget.t) :
  let allocated :=
    match renderTarget with
    | obj rt =>
        match RenderTarget._colorBuffers rt with
        | Some bufs => length bufs
        | None => 0%nat
        end
    | _ => 1%nat
    end in
  ∃ this',
    RenderPass.init device this renderTarget = Some this' ∧
    length (RenderPass.colorArrayOps this')
    = (allocated `max` length (RenderPass.colorArrayOps this))%nat ∧
    (∀ i, (i < allocated)%nat →
       ∃ ops, RenderPass.colorArrayOps this' !! i = Some ops ∧
         (RenderPass.samples this' = 1 →
            ColorAttachmentOps.store ops = true ∧
            ColorAttachmentOps.resolve ops = false) ∧
         (RenderPass.samples this' > 1 →
            ColorAttachmentOps.resolve ops = true ∧
            ColorAttachmentOps.store ops = false)) ∧
    ((length (RenderPass.colorArrayOps this) ≤ allocated)%nat →
     (RenderPass.samples this' = 1 →
        Forall (λ ops, ColorAttachmentOps.store ops = true ∧
                       ColorAttachmentOps.resolve ops = false)
          (RenderPass.colorArrayOps this')) ∧
     (RenderPass.samples this' > 1 →
        Forall (λ ops, ColorAttachmentOps.resolve ops = true ∧
                       ColorAttachmentOps.store ops = false)
          (RenderPass.colorArrayOps this'))).
Proof.
  intros allocated.
  assert (Hcount : allocated = iterations (RenderPass.numColorOps renderTarget)).
  { subst allocated. destruct renderTarget as [| |rt]; simpl; try done.
    by destruct (RenderTarget._colorBuffers rt). }
  destruct (RenderPass.init device this renderTarget) as [this'|] eqn:Hinit;
    [| by rewrite init_eq in Hinit].
  exists this'. split; [done |].
  pose proof (init_colorArrayOps_length _ _ _ _ Hinit) as Hlen'.
  rewrite <- Hcount in Hlen'.
  split; [exact Hlen' |].
  assert (Hrule : ∀ i, (i < allocated)%nat →
    ∃ ops, RenderPass.colorArrayOps this' !! i = Some ops ∧
      (RenderPass.samples this' = 1 →
         ColorAttachmentOps.store ops = true ∧
         ColorAttachmentOps.resolve ops = false) ∧
      (RenderPass.samples this' > 1 →
         ColorAttachmentOps.resolve ops = true ∧
         ColorAttachmentOps.store ops = false)).
  { intros i Hi. rewrite Hcount in Hi.
    destruct (init_allocated_lookup _ _ _ _ i Hinit Hi) as [m Hm].
    eexists; split; [exact Hm |]. unfold allocated_ops; simpl. split.
    - intros ->. done.
    - intros Hs. destruct (Z.eqb_spec (RenderPass.samples this') 1); [lia | done]. }
  split; [exact Hrule |].
  intros Hlen.
  split; intros Hs; apply Forall_lookup; intros i ops Hi;
    pose proof (lookup_lt_Some _ _ _ Hi) as Hlt;
    (destruct (Hrule i) as (ops' & Hops' & H1 & H2); [lia |]);
    rewrite Hi in Hops'; injection Hops' as <-; auto.
Qed.

Lemma init_single_sample_rule_witness :
  ∃ this',
    RenderPass.init (GraphicsDevice.mk 4 0) (RenderPass.constructor None)
      (obj (RenderTarget.mk 1 (Some [Texture.mk false; Texture.mk true])))
    = Some this' ∧
    length (RenderPass.colorArrayOps this') = 2%nat ∧
    Forall (λ ops, ColorAttachmentOps.store ops = true ∧
                   ColorAttachmentOps.resolve ops = false)
      (RenderPass.colorArrayOps this').
Proof.
  destruct (init_single_sample_rule (GraphicsDevice.mk 4 0)
              (RenderPass.constructor None)
              (obj (RenderTarget.mk 1 (Some [Texture.mk false; Texture.mk true]))))
    as (this' & Hinit & Hlen & _ & Hall).
  exists this'. split; [exact Hinit |]. split; [exact Hlen |].
  apply Hall.
  - simpl. lia.
  - vm_compute in Hinit. injection Hinit as <-. reflexivity.
Defined.

(** C5. After [init], [samples] is the maximum of 1 and the target's sample
    count when a target was supplied, the device's sample count otherwise;
    it is at least 1, so never zero. *)
Theorem init_samples (device : GraphicsDevice.t) (this : RenderPass.t)
    (renderTarget : ref RenderTarget.t) :
  ∃ this',
    RenderPass.init device this renderTarget = Some this' ∧
    RenderPass.samples this'
    = Z.max
        match renderTarget with
        | obj rt => RenderTarget.samples rt
        | _ => GraphicsDevice.samples device
        end 1 ∧
    1 ≤ RenderPass.samples this' ∧
    RenderPass.samples this' ≠ 0.
Proof.
  rewrite init_eq. eexists; split; [done |]. simpl.
  unfold effective_samples. repeat split; lia.
Qed.

(** C6. On a pass whose [colorArrayOps] is empty (as the constructor leaves
    it), [init(null)] and [init()] leave exactly one [ColorAttachmentOps] in
    [colorArrayOps], a new [DepthStencilAttachmentOps] in [depthStencilOps],
    and [null] in [renderTarget]. *)
Theorem init_default_framebuffer (device : GraphicsDevice.t)
    (this : RenderPass.t) (renderTarget : ref RenderTarget.t) :
  RenderPass.colorArrayOps this = [] →
  renderTarget = null ∨ renderTarget = undefined →
  ∃ this' ops,
    RenderPass.init device this renderTarget = Some this' ∧
    RenderPass.colorArrayOps this' = [ops] ∧
    ops = allocated_ops (RenderPass.samples this') false ∧
    RenderPass.colorOps this' = Some ops ∧
    RenderPass.depthStencilOps this' = Some DepthStencilAttachmentOps.new ∧
    RenderPass.renderTarget this' = null.
Proof.
  intros Hempty Hrt. rewrite init_eq, Hempty.
  destruct Hrt as [-> | ->]; simpl; eexists _, _; done.
Qed.

Lemma init_default_framebuffer_witness :
  ∃ this' ops,
    RenderPass.init (GraphicsDevice.mk 4 0) (RenderPass.constructor (Some 0%nat))
      null = Some this' ∧
    RenderPass.colorArrayOps this' = [ops] ∧
    RenderPass.colorOps this' = Some ops ∧
    RenderPass.depthStencilOps this' = Some DepthStencilAttachmentOps.new ∧
    RenderPass.renderTarget this' = null.
Proof.
  destruct (init_default_framebuffer (GraphicsDevice.mk 4 0)
              (RenderPass.constructor (Some 0%nat)) null)
    as (this' & ops & Hinit & Harr & _ & Hget & Hds & Hrt);
    [reflexivity | left; reflexivity |].
  by exists this', ops.
Defined.

(** C7. [init] with a target that has no [_colorBuffers] returns normally,
    allocates no [ColorAttachmentOps] (the array is left as it was, so it is
    empty on a new pass), and still allocates [depthStencilOps]. *)
Theorem init_without_color_buffers (device : GraphicsDevice.t)
    (this : RenderPass.t) (rt : RenderTarget.t) :
  RenderTarget._colorBuffers rt = None →
  ∃ this',
    RenderPass.init device this (obj rt) = Some this' ∧
    iterations (RenderPass.numColorOps (obj rt)) = 0%nat ∧
    RenderPass.colorArrayOps this' = RenderPass.colorArrayOps this ∧
    (RenderPass.colorArrayOps this = [] →
     length (RenderPass.colorArrayOps this') = 0%nat) ∧
    RenderPass.depthStencilOps this' = Some DepthStencilAttachmentOps.new ∧
    RenderPass.renderTarget this' = obj rt.
Proof.
  intros Hbufs. rewrite init_eq. eexists; split; [done |]. simpl.
  rewrite Hbufs. simpl. rewrite drop_0.
  repeat split; try done. by intros ->.
Qed.

Lemma init_without_color_buffers_witness :
  ∃ this',
    RenderPass.init (GraphicsDevice.mk 1 0) (RenderPass.constructor None)
      (obj (RenderTarget.mk 1 None)) = Some this' ∧
    length (RenderPass.colorArrayOps this') = 0%nat ∧
    RenderPass.depthStencilOps this' = Some DepthStencilAttachmentOps.new.
Proof.
  destruct (init_without_color_buffers (GraphicsDevice.mk 1 0)
              (RenderPass.constructor None) (RenderTarget.mk 1 None))
    as (this' & Hinit & _ & _ & Hlen & Hds & _); [reflexivity |].
  exists this'. split; [exact Hinit |]. split; [| exact Hds].
  apply Hlen. reflexivity.
Defined.

(** C10. [init] never shortens [colorArrayOps]: it writes the slots below
    [numColorOps] and leaves every slot from [numColorOps] on as it was.  A
    second [init] with fewer colour buffers than the first therefore keeps
    the objects of the first [init] in the slots beyond its own count. *)
Theorem init_keeps_stale_ops (device : GraphicsDevice.t)
    (this : RenderPass.t) (renderTarget : ref RenderTarget.t) :
  ∃ this',
    RenderPass.init device this renderTarget = Some this' ∧
    (length (RenderPass.colorArrayOps this)
       ≤ length (RenderPass.colorArrayOps this'))%nat ∧
    (∀ i, (iterations (RenderPass.numColorOps renderTarget) ≤ i)%nat →
       RenderPass.colorArrayOps this' !! i
       = RenderPass.colorArrayOps this !! i) ∧
    (∀ device2 renderTarget2,
       ∃ this'',
         RenderPass.init device2 this' renderTarget2 = Some this'' ∧
         (length (RenderPass.colorArrayOps this')
            ≤ length (RenderPass.colorArrayOps this''))%nat ∧
         (∀ i, (iterations (RenderPass.numColorOps renderTarget2) ≤ i)%nat →
               (i < iterations (RenderPass.numColorOps renderTarget))%nat →
               ∃ ops,
                 RenderPass.colorArrayOps this' !! i = Some ops ∧
                 RenderPass.colorArrayOps this'' !! i = Some ops)).
Proof.
  destruct (RenderPass.init device this renderTarget) as [this'|] eqn:Hinit;
    [| by rewrite init_eq in Hinit].
  exists this'. split; [done |].
  split; [rewrite (init_colorArrayOps_length _ _ _ _ Hinit); lia |].
  split; [intros i; by apply init_stale_lookup with device |].
  intros device2 renderTarget2.
  destruct (RenderPass.init device2 this' renderTarget2) as [this''|] eqn:Hinit2;
    [| by rewrite init_eq in Hinit2].
  exists this''. split; [done |].
  split; [rewrite (init_colorArrayOps_length _ _ _ _ Hinit2); lia |].
  intros i Hge Hlt.
  destruct (init_allocated_lookup _ _ _ _ i Hinit Hlt) as [m Hm].
  eexists; split; [exact Hm |].
  by rewrite (init_stale_lookup _ _ _ _ i Hinit2 Hge).
Qed.

Lemma init_keeps_stale_ops_witness :
  ∃ this' this'',
    RenderPass.init (GraphicsDevice.mk 1 0) (RenderPass.constructor None)
      (obj (RenderTarget.mk 4 (Some [Texture.mk false; Texture.mk true])))
    = Some this' ∧
    RenderPass.init (GraphicsDevice.mk 1 0) this' null = Some this'' ∧
    length (RenderPass.colorArrayOps this'') = 2%nat ∧
    RenderPass.colorArrayOps this'' !! 1%nat
    = Some (allocated_ops 4 true).
Proof.
  destruct (init_keeps_stale_ops (GraphicsDevice.mk 1 0)
              (RenderPass.constructor None)
              (obj (RenderTarget.mk 4 (Some [Texture.mk false; Texture.mk true]))))
    as (this' & Hinit & _ & _ & Hsecond).
  destruct (Hsecond (GraphicsDevice.mk 1 0) null)
    as (this'' & Hinit2 & _ & Hstale).
  exists this', this''. split; [exact Hinit |]. split; [exact Hinit2 |].
  destruct (Hstale 1%nat) as (ops & Hops & Hops'); [simpl; lia | simpl; lia |].
  vm_compute in Hinit. injection Hinit as <-.
  vm_compute in Hinit2. injection Hinit2 as <-.
  split; reflexivity.
Defined.

(** A slot left over from an earlier [init] is not rewritten by a later
    one: after a two-buffer target with 4 samples, [init(null)] on a device
    with 1 sample leaves slot 1 with the store and resolve flags of the
    4-sample pass. *)
Example init_stale_slot_keeps_flags :
  (RenderPass.init (GraphicsDevice.mk 1 0) (RenderPass.constructor None)
     (obj (RenderTarget.mk 4 (Some [Texture.mk false; Texture.mk false])))
   ≫= λ this, RenderPass.init (GraphicsDevice.mk 1 0) this null)
  = Some (RenderPass.mk None null 1
            [allocated_ops 1 false; allocated_ops 4 false]
            (Some DepthStencilAttachmentOps.new) true true None None None).
Proof. vm_compute. reflexivity. Qed.

(** ** The clear mutators *)

Lemma Color_copy_eq (this rhs : Color.t) : Color.copy this rhs = rhs.
Proof. by destruct rhs. Qed.

Lemma setClearColor_body_spec (color : Color.t) (this : RenderPass.t)
    (pre rest : list ColorAttachmentOps.t) (o : ColorAttachmentOps.t) :
  RenderPass.colorArrayOps this = pre ++ o :: rest →
  RenderPass.setClearColor_body color (length pre) this
  = Some (RenderPass.set_colorArrayOps
            (pre ++ with_clear color o :: rest) this).
Proof.
  intros Harr. unfold RenderPass.setClearColor_body, RenderPass.alter_colorOps.
  rewrite Harr. rewrite list_lookup_middle by done. simpl.
  rewrite !alter_at_length. by rewrite Color_copy_eq.
Qed.

Lemma setClearColor_loop_spec (color : Color.t)
    (rest : list ColorAttachmentOps.t) :
  ∀ (this : RenderPass.t) (pre : list ColorAttachmentOps.t),
    RenderPass.colorArrayOps this = pre ++ rest →
    for_range (length pre) (length rest)
      (RenderPass.setClearColor_body color) this
    = Some (RenderPass.set_colorArrayOps
              (pre ++ (with_clear color <$> rest)) this).
Proof.
  induction rest as [|o rest IH]; intros this pre Harr; simpl.
  - rewrite <- Harr. by destruct this.
  - rewrite (setClearColor_body_spec color this pre rest o Harr). simpl.
    set (this' := RenderPass.set_colorArrayOps _ this).
    specialize (IH this' (pre ++ [with_clear color o])).
    rewrite length_app in IH. simpl in IH.
    replace (length pre + 1)%nat with (S (length pre)) in IH by lia.
    rewrite IH.
    + subst this'. destruct this; unfold RenderPass.set_colorArrayOps; simpl.
      by rewrite <- app_assoc.
    + subst this'. simpl. by rewrite <- app_assoc.
Qed.

(** [setClearColor] in closed form: it always returns, and marks every slot
    of the array. *)
Lemma setClearColor_eq (color : Color.t) (this : RenderPass.t) :
  RenderPass.setClearColor color this
  = Some (RenderPass.set_colorArrayOps
            (with_clear color <$> RenderPass.colorArrayOps this) this).
Proof.
  unfold RenderPass.setClearColor.
  exact (setClearColor_loop_spec color (RenderPass.colorArrayOps this)
           this [] eq_refl).
Qed.

(** C4. [setClearColor(C)] on a pass with N slots in [colorArrayOps] returns
    normally with N slots, each with [clear] set and [clearValue] equal to
    [C] (every slot of the old array is marked, none skipped); a following
    [setClearColor(C')] again leaves N slots, each with [clear] set and
    [clearValue] equal to [C']. *)
Theorem setClearColor_all_slots (color color' : Color.t)
    (this : RenderPass.t) :
  ∃ this' this'',
    RenderPass.setClearColor color this = Some this' ∧
    length (RenderPass.colorArrayOps this')
    = length (RenderPass.colorArrayOps this) ∧
    Forall (λ ops, ColorAttachmentOps.clear ops = true ∧
                   ColorAttachmentOps.clearValue ops = color)
      (RenderPass.colorArrayOps this') ∧
    RenderPass.colorArrayOps this'
    = with_clear color <$> RenderPass.colorArrayOps this ∧
    RenderPass.setClearColor color' this' = Some this'' ∧
    length (RenderPass.colorArrayOps this'')
    = length (RenderPass.colorArrayOps this) ∧
    Forall (λ ops, ColorAttachmentOps.clear ops = true ∧
                   ColorAttachmentOps.clearValue ops = color')
      (RenderPass.colorArrayOps this'').
Proof.
  rewrite setClearColor_eq. eexists _, _.
  split; [reflexivity |].
  split; [simpl; by rewrite length_fmap |].
  split; [simpl; by apply Forall_fmap, Forall_true |].
  split; [reflexivity |].
  split; [apply setClearColor_eq |].
  split; simpl; [by rewrite !length_fmap | by apply Forall_fmap, Forall_true].
Qed.

(** C8. On a pass with [depthStencilOps] allocated, [setClearDepth(v)]
    writes [clearDepthValue] and [clearDepth] and nothing else, and
    [setClearStencil(v)] writes [clearStencilValue] and [clearStencil] and
    nothing else: the other fields of [depthStencilOps] and every other
    field of the pass, [colorArrayOps] included, are as before. *)
Theorem setClearDepth_setClearStencil_frame (v : Q) (this : RenderPass.t)
    (ops : DepthStencilAttachmentOps.t) :
  RenderPass.depthStencilOps this = Some ops →
  (∃ this' ops',
     RenderPass.setClearDepth v this = Some this' ∧
     RenderPass.depthStencilOps this' = Some ops' ∧
     DepthStencilAttachmentOps.clearDepthValue ops' = v ∧
     DepthStencilAttachmentOps.clearDepth ops' = true ∧
     DepthStencilAttachmentOps.clearStencilValue ops'
     = DepthStencilAttachmentOps.clearStencilValue ops ∧
     DepthStencilAttachmentOps.clearStencil ops'
     = DepthStencilAttachmentOps.clearStencil ops ∧
     DepthStencilAttachmentOps.storeDepth ops'
     = DepthStencilAttachmentOps.storeDepth ops ∧
     DepthStencilAttachmentOps.storeStencil ops'
     = DepthStencilAttachmentOps.storeStencil ops ∧
     same_but_depthStencilOps this this') ∧
  (∃ this' ops',
     RenderPass.setClearStencil v this = Some this' ∧
     RenderPass.depthStencilOps this' = Some ops' ∧
     DepthStencilAttachmentOps.clearStencilValue ops' = v ∧
     DepthStencilAttachmentOps.clearStencil ops' = true ∧
     DepthStencilAttachmentOps.clearDepthValue ops'
     = DepthStencilAttachmentOps.clearDepthValue ops ∧
     DepthStencilAttachmentOps.clearDepth ops'
     = DepthStencilAttachmentOps.clearDepth ops ∧
     DepthStencilAttachmentOps.storeDepth ops'
     = DepthStencilAttachmentOps.storeDepth ops ∧
     DepthStencilAttachmentOps.storeStencil ops'
     = DepthStencilAttachmentOps.storeStencil ops ∧
     same_but_depthStencilOps this this').
Proof.
  intros Hops. unfold RenderPass.setClearDepth, RenderPass.setClearStencil.
  rewrite Hops. simpl.
  split; eexists _, _; (split; [reflexivity |]); simpl;
    (split; [reflexivity |]); simpl; unfold same_but_depthStencilOps;
    simpl; done.
Qed.

Lemma setClearDepth_setClearStencil_frame_witness :
  ∃ this this' ops',
    RenderPass.init (GraphicsDevice.mk 1 0) (RenderPass.constructor None)
      (obj (RenderTarget.mk 1 None)) = Some this ∧
    RenderPass.setClearDepth (1 # 2) this = Some this' ∧
    RenderPass.depthStencilOps this' = Some ops' ∧
    DepthStencilAttachmentOps.clearDepthValue ops' = (1 # 2)%Q ∧
    DepthStencilAttachmentOps.clearDepth ops' = true ∧
    DepthStencilAttachmentOps.clearStencil ops' = false.
Proof.
  destruct (RenderPass.init (GraphicsDevice.mk 1 0) (RenderPass.constructor None)
              (obj (RenderTarget.mk 1 None))) as [this|] eqn:Hinit;
    [| discriminate Hinit].
  vm_compute in Hinit. injection Hinit as Hthis.
  destruct (setClearDepth_setClearStencil_frame (1 # 2) this
              DepthStencilAttachmentOps.new)
    as [(this' & ops' & Hset & Hds & Hv & Hc & _ & Hs & _) _].
  { by rewrite <- Hthis. }
  exists this, this', ops'. done.
Defined.

(** C9. [setClearColor], [setClearDepth] and [setClearStencil] are
    idempotent (twice with the same argument is the same as once) and
    commute pairwise (either order gives the same outcome: the same pass, or
    an exception in both orders when [depthStencilOps] is not allocated). *)
Theorem setClear_idempotent_commutative (color : Color.t) (d s : Q)
    (this : RenderPass.t) :
  (RenderPass.setClearColor color this ≫= RenderPass.setClearColor color
   = RenderPass.setClearColor color this) ∧
  (RenderPass.setClearDepth d this ≫= RenderPass.setClearDepth d
   = RenderPass.setClearDepth d this) ∧
  (RenderPass.setClearStencil s this ≫= RenderPass.setClearStencil s
   = RenderPass.setClearStencil s this) ∧
  (RenderPass.setClearColor color this ≫= RenderPass.setClearDepth d
   = RenderPass.setClearDepth d this ≫= RenderPass.setClearColor color) ∧
  (RenderPass.setClearColor color this ≫= RenderPass.setClearStencil s
   = RenderPass.setClearStencil s this ≫= RenderPass.setClearColor color) ∧
  (RenderPass.setClearDepth d this ≫= RenderPass.setClearStencil s
   = RenderPass.setClearStencil s this ≫= RenderPass.setClearDepth d) ∧
  (is_Some (RenderPass.depthStencilOps this) →
   is_Some ((RenderPass.setClearColor color this
               ≫= RenderPass.setClearDepth d)
              ≫= RenderPass.setClearStencil s)).
Proof.
  rewrite !setClearColor_eq.
  unfold RenderPass.setClearDepth, RenderPass.setClearStencil.
  destruct this as [nm tgt smp arr [ops|] rc fs ex be af]; simpl;
    rewrite ?setClearColor_eq; simpl; split_and!; try done.
  all: try by intros [? [=]].
  all: unfold RenderPass.set_colorArrayOps; simpl; do 2 f_equal.
  all: rewrite <- list_fmap_compose; by apply list_fmap_ext.
Qed.

Lemma setClear_idempotent_commutative_witness :
  ∃ this,
    RenderPass.init (GraphicsDevice.mk 4 0) (RenderPass.constructor None) null
    = Some this ∧
    (RenderPass.setClearColor (Color.mk 1 0 0 1) this
       ≫= RenderPass.setClearDepth (1 # 2)
     = RenderPass.setClearDepth (1 # 2) this
         ≫= RenderPass.setClearColor (Color.mk 1 0 0 1)) ∧
    is_Some ((RenderPass.setClearColor (Color.mk 1 0 0 1) this
                ≫= RenderPass.setClearDepth (1 # 2))
               ≫= RenderPass.setClearStencil 3).
Proof.
  destruct (RenderPass.init (GraphicsDevice.mk 4 0) (RenderPass.constructor None)
              null) as [this|] eqn:Hinit; [| discriminate Hinit].
  destruct (setClear_idempotent_commutative (Color.mk 1 0 0 1) (1 # 2) 3 this)
    as (_ & _ & _ & Hcomm & _ & _ & Hsome).
  exists this. split; [reflexivity |]. split; [exact Hcomm |].
  apply Hsome. vm_compute in Hinit. injection Hinit as <-. by eexists.
Defined.

(** ** [render] *)

Section RenderProperties.

Context {Ext : Type}.
Variable extern : call → World.t Ext → option (World.t Ext).

#[local] Arguments String.append : simpl never.

(** Case analysis along the code of [render]: on the outcome of each call
    into outside code, on the slots as they are read, and on [realPass]. *)
Ltac render_step :=
  match goal with
  | |- context [extern ?c ?w] => destruct (extern c w) eqn:?
  | |- context [RenderPass.before ?p] => destruct (RenderPass.before p) eqn:?
  | |- context [RenderPass.execute ?p] => destruct (RenderPass.execute p) eqn:?
  | |- context [RenderPass.after ?p] => destruct (RenderPass.after p) eqn:?
  | |- context [is_defined ?x] => destruct (is_defined x) eqn:?
  end.

Ltac render_cases :=
  unfold render, mbind, action_bind, mret, action_ret, reads, update,
    external, optional_call, when; simpl;
  repeat (render_step; simpl).

(** The slot value met on the path taken, [None] when the path ended
    before the slot was read. *)
Ltac slot_read proj :=
  match goal with
  | H : proj _ = ?v |- _ => exists v
  | _ => exists None
  end.

(** Whatever outside code does, the calls made follow the fixed order, up
    to the point where a call raised, and to the end when [render]
    returns. *)
Lemma render_trace_shape (w : World.t Ext) :
  ∃ b e a,
    (render Ext extern w).1
      `prefix_of` render_order (marker_label (World.pass w))
                    (is_defined (RenderPass.renderTarget (World.pass w)))
                    b e a ∧
    (is_Some (render Ext extern w).2 →
     (render Ext extern w).1
     = render_order (marker_label (World.pass w))
         (is_defined (RenderPass.renderTarget (World.pass w))) b e a).
Proof.
  unfold marker_label, render_order, slot_call, bracket.
  render_cases.
  all: slot_read RenderPass.before; slot_read RenderPass.execute;
    slot_read RenderPass.after.
  all: (split; [eexists; simpl; reflexivity |]).
  all: intros [? Hsome]; try discriminate Hsome.
  all: reflexivity.
Qed.

(** [render] raises only when a call into outside code raises. *)
Lemma render_returns (w : World.t Ext) :
  never_raises extern → is_Some (render Ext extern w).2.
Proof.
  intros Hnr. render_cases.
  all: try match goal with
       | H : extern ?c ?w = None |- _ =>
           destruct (Hnr c w) as [? ?]; congruence
       end.
  all: by eexists.
Qed.

Ltac use_preserved Hpres :=
  repeat match goal with
         | H : extern _ _ = Some _ |- _ => apply Hpres in H
         end.

(** When outside code leaves the slots as they are, the functions called
    are those the pass held on entry. *)
Lemma render_trace_exact (w : World.t Ext) :
  preserves extern slots →
  is_Some (render Ext extern w).2 →
  (render Ext extern w).1
  = render_order (marker_label (World.pass w))
      (is_defined (RenderPass.renderTarget (World.pass w)))
      (RenderPass.before (World.pass w))
      (RenderPass.execute (World.pass w))
      (RenderPass.after (World.pass w)).
Proof.
  intros Hpres.
  unfold marker_label, render_order, slot_call, bracket.
  render_cases.
  all: intros [? Hsome]; try discriminate Hsome.
  all: use_preserved Hpres; unfold slots in *; simpl in *.
  all: congruence.
Qed.

(** [render] writes nothing but the device: a part of the objects that does
    not depend on the device and that outside code leaves as it is, is left
    as it is. *)
Lemma render_frame {A} (proj : World.t Ext → A) (w w' : World.t Ext) :
  preserves extern proj →
  (∀ d v, proj (World.set_device d v) = proj v) →
  (render Ext extern w).2 = Some ((), w') →
  proj w' = proj w.
Proof.
  intros Hpres Hdev. render_cases.
  all: try discriminate.
  all: intros [= <-]; use_preserved Hpres; rewrite ?Hdev in *.
  all: congruence.
Qed.

(** [render] adds one to the counter, once. *)
Lemma render_counter (w w' : World.t Ext) :
  preserves extern counter →
  (render Ext extern w).2 = Some ((), w') →
  counter w' = counter w + 1.
Proof.
  intros Hpres. render_cases.
  all: try discriminate.
  all: intros [= <-]; use_preserved Hpres; unfold counter in *; simpl in *.
  all: lia.
Qed.

(** A pass whose [renderTarget] is [undefined] never reaches the device's
    begin-pass and end-pass operations. *)
Lemma render_undefined_no_bracket (w : World.t Ext) :
  RenderPass.renderTarget (World.pass w) = undefined →
  (startPass ∉ (render Ext extern w).1) ∧
  (endPass ∉ (render Ext extern w).1).
Proof.
  intros Hrt.
  unfold render, mbind, action_bind, mret, action_ret, reads, update,
    external, optional_call, when.
  rewrite Hrt. simpl.
  repeat (render_step; simpl).
  all: split; intros Hin.
  all: repeat (apply elem_of_cons in Hin as [Hin | Hin]; [discriminate |]).
  all: by apply elem_of_nil in Hin.
Qed.

End RenderProperties.

(** C2. Every [render] makes its calls in the order [before], begin-pass
    (only when [renderTarget] is not [undefined]), [execute], end-pass
    (under the same condition), [after]: up to the point where a call into
    outside code raised, and to the end when [render] returns, which it does
    whenever no such call raises.  When outside code leaves the slots of the
    pass as they are, the functions called are exactly those present on
    entry, whichever of the three are present; when it leaves the device's
    render-pass counter as it is, a [render] that returns has added exactly
    one to the counter. *)
Theorem render_order_and_counter {Ext : Type}
    (extern : call → World.t Ext → option (World.t Ext)) (w : World.t Ext) :
  let this := World.pass w in
  let label := marker_label this in
  let real := is_defined (RenderPass.renderTarget this) in
  (∃ b e a,
     (render Ext extern w).1 `prefix_of` render_order label real b e a ∧
     (is_Some (render Ext extern w).2 →
      (render Ext extern w).1 = render_order label real b e a)) ∧
  (never_raises extern → is_Some (render Ext extern w).2) ∧
  (preserves extern slots →
   is_Some (render Ext extern w).2 →
   (render Ext extern w).1
   = render_order label real (RenderPass.before this)
       (RenderPass.execute this) (RenderPass.after this)) ∧
  (preserves extern counter →
   ∀ w', (render Ext extern w).2 = Some ((), w') →
         counter w' = counter w + 1).
Proof.
  simpl. split; [apply render_trace_shape |].
  split; [apply render_returns |].
  split; [apply render_trace_exact |].
  intros Hpres w'. by apply render_counter.
Qed.

Lemma render_order_and_counter_witness :
  let this :=
    {| RenderPass.name := Some "Forward"%string;
       RenderPass.renderTarget := null;
       RenderPass.samples := 1;
       RenderPass.colorArrayOps := [allocated_ops 1 false];
       RenderPass.depthStencilOps := Some DepthStencilAttachmentOps.new;
       RenderPass.requiresCubemaps := true;
       RenderPass.fullSizeClearRect := true;
       RenderPass.execute := Some 2%nat;
       RenderPass.before := Some 1%nat;
       RenderPass.after := None |} in
  let w := World.mk (GraphicsDevice.mk 1 7) this () in
  let r := render () (λ _ v, Some v) w in
  r.1 = [pushGpuMarker "Pass:Forward"; debugCall; invoke Before 1%nat;
         startPass; invoke Execute 2%nat; endPass; popGpuMarker] ∧
  ∃ w', r.2 = Some ((), w') ∧ counter w' = 8.
Proof.
  intros this w r.
  destruct (render_order_and_counter (λ _ v, Some v) w)
    as (_ & Hret & Hexact & Hcount).
  assert (Hnr : never_raises (λ (_ : call) (v : World.t ()), Some v))
    by (intros c v; by eexists).
  assert (Hslots : preserves (λ (_ : call) (v : World.t ()), Some v) slots)
    by (intros c v v' [= <-]; reflexivity).
  assert (Hctr : preserves (λ (_ : call) (v : World.t ()), Some v) counter)
    by (intros c v v' [= <-]; reflexivity).
  split.
  - exact (Hexact Hslots (Hret Hnr)).
  - destruct (Hret Hnr) as [[[] w'] Hw']. exists w'. split; [exact Hw' |].
    exact (Hcount Hctr w' Hw').
Defined.

(** C3. On a pass whose [renderTarget] is [undefined] ([init] never
    called), [render] never calls the device's begin-pass and end-pass
    operations; it returns whenever outside code does not raise; the
    functions it calls are [before], [execute] and [after], each when
    present; and it leaves [colorArrayOps] and [depthStencilOps] as they
    are whenever the functions called do. *)
Theorem render_without_init {Ext : Type}
    (extern : call → World.t Ext → option (World.t Ext)) (w : World.t Ext) :
  RenderPass.renderTarget (World.pass w) = undefined →
  let this := World.pass w in
  ((startPass ∉ (render Ext extern w).1) ∧
   (endPass ∉ (render Ext extern w).1)) ∧
  (never_raises extern → is_Some (render Ext extern w).2) ∧
  (preserves extern slots →
   is_Some (render Ext extern w).2 →
   (render Ext extern w).1
   = [pushGpuMarker (marker_label this); debugCall]
     ++ slot_call Before (RenderPass.before this)
     ++ slot_call Execute (RenderPass.execute this)
     ++ slot_call After (RenderPass.after this)
     ++ [popGpuMarker]) ∧
  (preserves extern attachment_ops →
   ∀ w', (render Ext extern w).2 = Some ((), w') →
         RenderPass.colorArrayOps (World.pass w')
         = RenderPass.colorArrayOps this ∧
         RenderPass.depthStencilOps (World.pass w')
         = RenderPass.depthStencilOps this).
Proof.
  intros Hrt. simpl.
  split; [by apply render_undefined_no_bracket |].
  split; [apply render_returns |].
  split.
  - intros Hpres Hsome. rewrite (render_trace_exact extern w Hpres Hsome).
    by rewrite Hrt.
  - intros Hpres w' Hw'.
    pose proof (render_frame extern attachment_ops w w' Hpres
                  (λ _ _, eq_refl) Hw') as Hops.
    unfold attachment_ops in Hops. by injection Hops.
Qed.

Lemma render_without_init_witness :
  let w := World.mk (GraphicsDevice.mk 1 0)
             (RenderPass.constructor (Some 0%nat)) () in
  let r := render () (λ _ v, Some v) w in
  r.1 = [pushGpuMarker "Pass:undefined"; debugCall; invoke Execute 0%nat;
         popGpuMarker] ∧
  ∃ w', r.2 = Some ((), w') ∧
        RenderPass.colorArrayOps (World.pass w') = [] ∧
        RenderPass.depthStencilOps (World.pass w') = None.
Proof.
  intros w r.
  destruct (render_without_init (λ _ v, Some v) w eq_refl)
    as (_ & Hret & Hexact & Hops).
  assert (Hnr : never_raises (λ (_ : call) (v : World.t ()), Some v))
    by (intros c v; by eexists).
  assert (Hslots : preserves (λ (_ : call) (v : World.t ()), Some v) slots)
    by (intros c v v' [= <-]; reflexivity).
  assert (Hatt : preserves (λ (_ : call) (v : World.t ()), Some v)
                   attachment_ops)
    by (intros c v v' [= <-]; reflexivity).
  split.
  - exact (Hexact Hslots (Hret Hnr)).
  - destruct (Hret Hnr) as [[[] w'] Hw']. exists w'. split; [exact Hw' |].
    exact (Hops Hatt w' Hw').
Defined.

(** ** Scenarios *)

(** A target with four colour buffers and 4 samples: after
    [setClearColor(red)] every slot has [clear] set, [clearValue] red and
    [resolve] at its default; [render] with no function set brackets the
    pass with one begin-pass and one end-pass. *)
Example scenario_multisampled_clear :
  let red := Color.mk 1 0 0 1 in
  let target :=
    RenderTarget.mk 4
      (Some [Texture.mk false; Texture.mk false; Texture.mk false;
             Texture.mk false]) in
  let this :=
    RenderPass.mk None (obj target) 4
      (replicate 4 (with_clear red (allocated_ops 4 false)))
      (Some DepthStencilAttachmentOps.new) true true None None None in
  (RenderPass.init (GraphicsDevice.mk 1 0) (RenderPass.constructor None)
     (obj target) ≫= RenderPass.setClearColor red) = Some this ∧
  (render () (λ _ v, Some v) (World.mk (GraphicsDevice.mk 1 0) this ())).1
  = [pushGpuMarker "Pass:undefined"; debugCall; startPass; endPass;
     popGpuMarker].
Proof. split; vm_compute; reflexivity. Qed.

(** A depth-only target (no colour buffers): no colour slots, depth/stencil
    operations allocated; [setClearDepth(0.5)] sets the depth clear and
    leaves the stencil clear unset. *)
Example scenario_depth_only :
  (RenderPass.init (GraphicsDevice.mk 1 0) (RenderPass.constructor None)
     (obj (RenderTarget.mk 1 (Some []))) ≫= RenderPass.setClearDepth (1 # 2))
  = Some (RenderPass.mk None (obj (RenderTarget.mk 1 (Some []))) 1 []
            (Some (DepthStencilAttachmentOps.mk (1 # 2) 0 true false
                     false false))
            true true None None None).
Proof. vm_compute. reflexivity. Qed.

(** * Further properties of the pass *)

(** ** [init]: what the slots hold, and how calls compose *)

(** X1. [init] with a target that has colour buffers leaves, in each slot
    below their number, an object whose [mipmaps] flag is that of the colour
    buffer at the same index, with nothing marked for clearing and the
    clear colour at opaque black; the array then has as many slots as the
    target has colour buffers, or as it had before if that was more. *)
Theorem init_slots_mirror_color_buffers (device : GraphicsDevice.t)
    (this : RenderPass.t) (rt : RenderTarget.t) (bufs : list Texture.t) :
  RenderTarget._colorBuffers rt = Some bufs →
  ∃ this',
    RenderPass.init device this (obj rt) = Some this' ∧
    length (RenderPass.colorArrayOps this')
    = (length bufs `max` length (RenderPass.colorArrayOps this))%nat ∧
    ∀ i tex, bufs !! i = Some tex →
      ∃ ops,
        RenderPass.colorArrayOps this' !! i = Some ops ∧
        ColorAttachmentOps.mipmaps ops = Texture.mipmaps tex ∧
        ColorAttachmentOps.clear ops = false ∧
        ColorAttachmentOps.clearValue ops = Color.mk 0 0 0 1.
Proof.
  intros Hbufs. rewrite init_eq. eexists; split; [reflexivity |]. simpl.
  rewrite Hbufs. simpl. split.
  - rewrite length_app, !length_fmap, length_drop. lia.
  - intros i tex Hi.
    exists (allocated_ops (effective_samples device (obj rt))
              (Texture.mipmaps tex)).
    split; [| done].
    rewrite lookup_app_l.
    + by rewrite !list_lookup_fmap, Hi.
    + rewrite !length_fmap. by eapply lookup_lt_Some.
Qed.

Lemma init_slots_mirror_color_buffers_witness :
  ∃ this' ops,
    RenderPass.init (GraphicsDevice.mk 1 0) (RenderPass.constructor None)
      (obj (RenderTarget.mk 1 (Some [Texture.mk false; Texture.mk true])))
    = Some this' ∧
    length (RenderPass.colorArrayOps this') = 2%nat ∧
    RenderPass.colorArrayOps this' !! 1%nat = Some ops ∧
    ColorAttachmentOps.mipmaps ops = true.
Proof.
  destruct (init_slots_mirror_color_buffers (GraphicsDevice.mk 1 0)
              (RenderPass.constructor None)
              (RenderTarget.mk 1 (Some [Texture.mk false; Texture.mk true]))
              [Texture.mk false; Texture.mk true] eq_refl)
    as (this' & Hinit & Hlen & Hslots).
  destruct (Hslots 1%nat (Texture.mk true) eq_refl) as (ops & Hops & Hmip & _).
  exists this', ops. done.
Defined.

(** X2. [init] is idempotent: a second [init] with the same device and the
    same argument leaves the pass as the first one did. *)
Theorem init_idempotent (device : GraphicsDevice.t) (this : RenderPass.t)
    (renderTarget : ref RenderTarget.t) :
  RenderPass.init device this renderTarget
    ≫= (λ this', RenderPass.init device this' renderTarget)
  = RenderPass.init device this renderTarget.
Proof.
  rewrite (init_eq device this). simpl. rewrite init_eq. simpl.
  rewrite drop_app_length'; [done |]. by rewrite length_fmap.
Qed.

(** X3. [init] derives the target, the sample count and the attachment
    operations anew: its outcome does not depend on the [renderTarget],
    [samples] and [depthStencilOps] the pass held, nor on the slots of
    [colorArrayOps] below [numColorOps]; and it leaves [name],
    [requiresCubemaps], [fullSizeClearRect], [execute], [before] and
    [after] as they were. *)
Theorem init_from_scratch (device : GraphicsDevice.t)
    (this other : RenderPass.t) (renderTarget : ref RenderTarget.t) :
  RenderPass.name other = RenderPass.name this →
  RenderPass.requiresCubemaps other = RenderPass.requiresCubemaps this →
  RenderPass.fullSizeClearRect other = RenderPass.fullSizeClearRect this →
  RenderPass.execute other = RenderPass.execute this →
  RenderPass.before other = RenderPass.before this →
  RenderPass.after other = RenderPass.after this →
  drop (iterations (RenderPass.numColorOps renderTarget))
    (RenderPass.colorArrayOps other)
  = drop (iterations (RenderPass.numColorOps renderTarget))
      (RenderPass.colorArrayOps this) →
  RenderPass.init device other renderTarget
  = RenderPass.init device this renderTarget ∧
  ∃ this',
    RenderPass.init device this renderTarget = Some this' ∧
    RenderPass.name this' = RenderPass.name this ∧
    RenderPass.requiresCubemaps this' = RenderPass.requiresCubemaps this ∧
    RenderPass.fullSizeClearRect this' = RenderPass.fullSizeClearRect this ∧
    RenderPass.execute this' = RenderPass.execute this ∧
    RenderPass.before this' = RenderPass.before this ∧
    RenderPass.after this' = RenderPass.after this.
Proof.
  intros Hn Hrc Hfs Hex Hbe Haf Hdrop.
  rewrite !init_eq, mip_flags_length, Hn, Hrc, Hfs, Hex, Hbe, Haf, Hdrop.
  split; [reflexivity |]. by eexists.
Qed.

Lemma init_from_scratch_witness :
  let target := RenderTarget.mk 4 (Some [Texture.mk false]) in
  let this := RenderPass.constructor (Some 5%nat) in
  let other :=
    RenderPass.mk None null 1 [allocated_ops 1 true]
      (Some (DepthStencilAttachmentOps.mk 0 7 true true false false))
      true true (Some 5%nat) None None in
  RenderPass.init (GraphicsDevice.mk 1 0) other (obj target)
  = RenderPass.init (GraphicsDevice.mk 1 0) this (obj target).
Proof.
  intros target this other.
  apply (init_from_scratch (GraphicsDevice.mk 1 0) this other (obj target));
    reflexivity.
Defined.

(** X4. [init] discards the clear declarations made before it: on a pass
    with [depthStencilOps] allocated, [setClearDepth] or [setClearStencil]
    followed by [init] is the same as [init] alone, and so is
    [setClearColor] followed by [init] when the array holds no slot beyond
    the ones [init] allocates. *)
Theorem init_discards_clear_declarations (device : GraphicsDevice.t)
    (this : RenderPass.t) (renderTarget : ref RenderTarget.t)
    (color : Color.t) (v : Q) :
  is_Some (RenderPass.depthStencilOps this) →
  (RenderPass.setClearDepth v this
     ≫= (λ p, RenderPass.init device p renderTarget)
   = RenderPass.init device this renderTarget) ∧
  (RenderPass.setClearStencil v this
     ≫= (λ p, RenderPass.init device p renderTarget)
   = RenderPass.init device this renderTarget) ∧
  ((length (RenderPass.colorArrayOps this)
      ≤ iterations (RenderPass.numColorOps renderTarget))%nat →
   RenderPass.setClearColor color this
     ≫= (λ p, RenderPass.init device p renderTarget)
   = RenderPass.init device this renderTarget).
Proof.
  intros [ops Hops].
  unfold RenderPass.setClearDepth, RenderPass.setClearStencil.
  rewrite Hops, setClearColor_eq. simpl. rewrite !init_eq. simpl.
  split; [done |]. split; [done |].
  intros Hlen. rewrite <- mip_flags_length in Hlen.
  do 3 f_equal.
  rewrite !drop_ge; [done | done |]. by rewrite length_fmap.
Qed.

Lemma init_discards_clear_declarations_witness :
  ∃ this,
    RenderPass.init (GraphicsDevice.mk 1 0) (RenderPass.constructor None) null
    = Some this ∧
    (RenderPass.setClearColor (Color.mk 1 0 0 1) this
       ≫= (λ p, RenderPass.init (GraphicsDevice.mk 1 0) p null))
    = Some this.
Proof.
  destruct (RenderPass.init (GraphicsDevice.mk 1 0) (RenderPass.constructor None)
              null) as [this|] eqn:Hinit; [| discriminate Hinit].
  exists this. split; [reflexivity |].
  vm_compute in Hinit. injection Hinit as Hthis.
  destruct (init_discards_clear_declarations (GraphicsDevice.mk 1 0) this null
              (Color.mk 1 0 0 1) 0) as (_ & _ & Hcolor).
  { rewrite <- Hthis. by eexists. }
  rewrite Hcolor.
  - rewrite <- Hthis. vm_compute. reflexivity.
  - rewrite <- Hthis. simpl. lia.
Defined.

(** ** The clear mutators: errors, frames and sequences *)

(** X5. [setClearDepth] and [setClearStencil] return exactly when
    [depthStencilOps] is allocated: on a pass as the constructor leaves it
    they raise, and after any [init] they return. *)
Theorem setClearDepth_setClearStencil_need_init (v : Q)
    (this : RenderPass.t) :
  (is_Some (RenderPass.setClearDepth v this)
   ↔ is_Some (RenderPass.depthStencilOps this)) ∧
  (is_Some (RenderPass.setClearStencil v this)
   ↔ is_Some (RenderPass.depthStencilOps this)) ∧
  (∀ execute,
     RenderPass.setClearDepth v (RenderPass.constructor execute) = None ∧
     RenderPass.setClearStencil v (RenderPass.constructor execute) = None) ∧
  (∀ device renderTarget,
     is_Some (RenderPass.init device this renderTarget
                ≫= RenderPass.setClearDepth v) ∧
     is_Some (RenderPass.init device this renderTarget
                ≫= RenderPass.setClearStencil v)).
Proof.
  unfold RenderPass.setClearDepth, RenderPass.setClearStencil.
  split_and!.
  - destruct (RenderPass.depthStencilOps this); simpl; split; intros [? ?];
      by eauto.
  - destruct (RenderPass.depthStencilOps this); simpl; split; intros [? ?];
      by eauto.
  - done.
  - intros device renderTarget. rewrite init_eq. simpl. split; by eexists.
Qed.

(** X6. [setClearColor] always returns; it keeps the number of slots and,
    in every slot, the [store], [resolve] and [mipmaps] flags; the pass it
    leaves is the old one with [colorArrayOps] alone replaced; on a pass
    without slots (before [init], or after [init] with a target without
    colour buffers) it changes nothing. *)
Theorem setClearColor_frame (color : Color.t) (this : RenderPass.t) :
  ∃ this',
    RenderPass.setClearColor color this = Some this' ∧
    store_flags <$> RenderPass.colorArrayOps this'
    = store_flags <$> RenderPass.colorArrayOps this ∧
    this'
    = RenderPass.set_colorArrayOps (RenderPass.colorArrayOps this') this ∧
    (RenderPass.colorArrayOps this = [] → this' = this).
Proof.
  rewrite setClearColor_eq. eexists. split; [reflexivity |]. simpl.
  split_and!; try done.
  - rewrite <- list_fmap_compose. by apply list_fmap_ext.
  - intros Hempty. destruct this; simpl in *. by subst.
Qed.

Lemma setClearColor_frame_witness :
  RenderPass.setClearColor (Color.mk 1 0 0 1) (RenderPass.constructor None)
  = Some (RenderPass.constructor None).
Proof.
  destruct (setClearColor_frame (Color.mk 1 0 0 1) (RenderPass.constructor None))
    as (this' & Hset & _ & _ & Hempty).
  rewrite Hset. f_equal. apply Hempty. reflexivity.
Defined.

(** X7. The last clear declaration wins: a [setClearColor],
    [setClearDepth] or [setClearStencil] followed by the same mutator with
    another argument is the same as the second call alone. *)
Theorem setClear_last_wins (color color' : Color.t) (v v' : Q)
    (this : RenderPass.t) :
  (RenderPass.setClearColor color this ≫= RenderPass.setClearColor color'
   = RenderPass.setClearColor color' this) ∧
  (RenderPass.setClearDepth v this ≫= RenderPass.setClearDepth v'
   = RenderPass.setClearDepth v' this) ∧
  (RenderPass.setClearStencil v this ≫= RenderPass.setClearStencil v'
   = RenderPass.setClearStencil v' this).
Proof.
  rewrite !setClearColor_eq.
  unfold RenderPass.setClearDepth, RenderPass.setClearStencil.
  destruct this as [nm tgt smp arr [ops|] rc fs ex be af]; simpl;
    rewrite ?setClearColor_eq; simpl; split_and!; try done.
  all: unfold RenderPass.set_colorArrayOps; simpl; do 2 f_equal.
  all: rewrite <- list_fmap_compose; by apply list_fmap_ext.
Qed.

Lemma same_but_clears_refl (p : RenderPass.t) : same_but_clears p p.
Proof. unfold same_but_clears. done. Qed.

Lemma same_but_clears_trans (p q r : RenderPass.t) :
  same_but_clears p q → same_but_clears q r → same_but_clears p r.
Proof.
  unfold same_but_clears. intros H1 H2.
  destruct_and!. split_and!; congruence.
Qed.

Lemma apply_mutator_spec (m : mutator) (this : RenderPass.t) :
  is_Some (RenderPass.depthStencilOps this) →
  ∃ this', apply_mutator m this = Some this' ∧ same_but_clears this this'.
Proof.
  intros [ops Hops]. destruct m as [color|v|v]; simpl.
  - rewrite setClearColor_eq. eexists. split; [reflexivity |].
    unfold same_but_clears. simpl. split_and!; try done.
    rewrite <- list_fmap_compose. by apply list_fmap_ext.
  - unfold RenderPass.setClearDepth. rewrite Hops. simpl.
    eexists. split; [reflexivity |].
    unfold same_but_clears. simpl. rewrite Hops. done.
  - unfold RenderPass.setClearStencil. rewrite Hops. simpl.
    eexists. split; [reflexivity |].
    unfold same_but_clears. simpl. rewrite Hops. done.
Qed.

(** X8. On a pass with [depthStencilOps] allocated, any sequence of clear
    declarations returns and changes nothing but what is declared for
    clearing: target, sample count, the callbacks, and the [store],
    [resolve] and [mipmaps] flags of every slot stay.  So the single-sample
    rule that [init] sets up ([store] set and [resolve] unset in every slot
    when the sample count is 1) holds after the sequence if it held
    before. *)
Theorem clear_declarations_keep_store_flags (ms : list mutator)
    (this : RenderPass.t) :
  is_Some (RenderPass.depthStencilOps this) →
  ∃ this',
    apply_mutators ms this = Some this' ∧
    same_but_clears this this' ∧
    (Forall (λ ops, ColorAttachmentOps.store ops = true ∧
                    ColorAttachmentOps.resolve ops = false)
       (RenderPass.colorArrayOps this) →
     Forall (λ ops, ColorAttachmentOps.store ops = true ∧
                    ColorAttachmentOps.resolve ops = false)
       (RenderPass.colorArrayOps this')).
Proof.
  intros Hds.
  assert (Hrun : ∃ this', apply_mutators ms this = Some this' ∧
                          same_but_clears this this').
  { revert this Hds. induction ms as [|m ms IH]; intros this Hds; simpl.
    - eexists. split; [reflexivity | apply same_but_clears_refl].
    - destruct (apply_mutator_spec m this Hds) as (this1 & -> & Hsame1). simpl.
      destruct (IH this1) as (this' & Hrun & Hsame').
      + destruct Hsame1 as (_ & _ & _ & _ & _ & _ & _ & _ & _ & Hd).
        destruct Hds as [ops Hops]. rewrite Hops in Hd.
        destruct (RenderPass.depthStencilOps this1); [by eexists | done].
      + exists this'. split; [done |]. by eapply same_but_clears_trans. }
  destruct Hrun as (this' & Hrun & Hsame). exists this'.
  split; [done |]. split; [done |].
  destruct Hsame as (_ & _ & _ & _ & _ & _ & _ & _ & Hflags & _).
  intros Hall.
  assert (Hall' : Forall (λ f : bool * bool * bool, f.1.1 = true ∧ f.1.2 = false)
                    (store_flags <$> RenderPass.colorArrayOps this)).
  { apply Forall_fmap. eapply Forall_impl; [exact Hall |]. by intros ops. }
  rewrite <- Hflags in Hall'. apply Forall_fmap in Hall'.
  eapply Forall_impl; [exact Hall' |]. by intros ops.
Qed.

Lemma clear_declarations_keep_store_flags_witness :
  ∃ this this',
    RenderPass.init (GraphicsDevice.mk 1 0) (RenderPass.constructor None) null
    = Some this ∧
    apply_mutators
      [SetClearColor (Color.mk 1 0 0 1); SetClearDepth (1 # 2);
       SetClearStencil 3; SetClearColor (Color.mk 0 0 1 1)] this
    = Some this' ∧
    Forall (λ ops, ColorAttachmentOps.store ops = true ∧
                   ColorAttachmentOps.resolve ops = false)
      (RenderPass.colorArrayOps this').
Proof.
  destruct (RenderPass.init (GraphicsDevice.mk 1 0) (RenderPass.constructor None)
              null) as [this|] eqn:Hinit; [| discriminate Hinit].
  vm_compute in Hinit. injection Hinit as Hthis.
  destruct (clear_declarations_keep_store_flags
              [SetClearColor (Color.mk 1 0 0 1); SetClearDepth (1 # 2);
               SetClearStencil 3; SetClearColor (Color.mk 0 0 1 1)] this)
    as (this' & Hrun & _ & Hkeep).
  { rewrite <- Hthis. by eexists. }
  exists this, this'. split; [reflexivity |]. split; [exact Hrun |].
  apply Hkeep. rewrite <- Hthis. repeat constructor.
Defined.

(** X9. The [colorOps] getter reads slot 0: it is [undefined] exactly when
    there is no slot; after [init] for the default framebuffer or for a
    target with at least one colour buffer it is the object [init] put in
    slot 0; after [init] with a target without colour buffers it is what
    it was before (so [undefined] on a new pass); and [setClearColor] marks
    the object it returns. *)
Theorem colorOps_reads_first_slot (device : GraphicsDevice.t)
    (this : RenderPass.t) :
  (RenderPass.colorOps this = None ↔ RenderPass.colorArrayOps this = []) ∧
  (∀ renderTarget,
     renderTarget = null ∨ renderTarget = undefined →
     RenderPass.colorOps <$> RenderPass.init device this renderTarget
     = Some (Some (allocated_ops (Z.max (GraphicsDevice.samples device) 1)
                     false))) ∧
  (∀ rt tex bufs,
     RenderTarget._colorBuffers rt = Some (tex :: bufs) →
     RenderPass.colorOps <$> RenderPass.init device this (obj rt)
     = Some (Some (allocated_ops (Z.max (RenderTarget.samples rt) 1)
                     (Texture.mipmaps tex)))) ∧
  (∀ rt,
     RenderTarget._colorBuffers rt = None ∨
     RenderTarget._colorBuffers rt = Some [] →
     RenderPass.colorOps <$> RenderPass.init device this (obj rt)
     = Some (RenderPass.colorOps this)) ∧
  (∀ color,
     RenderPass.colorOps <$> RenderPass.setClearColor color this
     = Some (with_clear color <$> RenderPass.colorOps this)).
Proof.
  unfold RenderPass.colorOps. split_and!.
  - by destruct (RenderPass.colorArrayOps this).
  - intros renderTarget [-> | ->]; by rewrite init_eq.
  - intros rt tex bufs Hbufs. rewrite init_eq. simpl. by rewrite Hbufs.
  - intros rt [Hbufs | Hbufs]; rewrite init_eq; simpl; rewrite Hbufs; simpl;
      by rewrite drop_0.
  - intros color. rewrite setClearColor_eq. simpl.
    by rewrite list_lookup_fmap.
Qed.

Lemma colorOps_reads_first_slot_witness :
  RenderPass.colorOps
    <$> RenderPass.init (GraphicsDevice.mk 1 0) (RenderPass.constructor None)
          (obj (RenderTarget.mk 1 None))
  = Some None.
Proof.
  destruct (colorOps_reads_first_slot (GraphicsDevice.mk 1 0)
              (RenderPass.constructor None)) as (_ & _ & _ & Hnone & _).
  rewrite (Hnone (RenderTarget.mk 1 None)); [reflexivity | by left].
Defined.

(** ** [render]: exceptions, frame and repetition *)

Section RenderFurther.

Context {Ext : Type}.
Variable extern : call → World.t Ext → option (World.t Ext).

#[local] Arguments String.append : simpl never.

Ltac run_step :=
  match goal with
  | |- context [extern ?c ?w] => destruct (extern c w) eqn:?
  | |- context [RenderPass.before ?p] => destruct (RenderPass.before p) eqn:?
  | |- context [RenderPass.execute ?p] => destruct (RenderPass.execute p) eqn:?
  | |- context [RenderPass.after ?p] => destruct (RenderPass.after p) eqn:?
  | |- context [is_defined ?x] => destruct (is_defined x) eqn:?
  end.

Ltac run_cases :=
  unfold render, mbind, action_bind, mret, action_ret, reads, update,
    external, optional_call, when; simpl;
  repeat (run_step; simpl).

Ltac not_among H :=
  repeat (apply elem_of_cons in H as [H | H]; [discriminate |]);
  by apply elem_of_nil in H.

(** X10. When a call into outside code raises, [render] stops there: the
    raising call is the last one made, the marker pushed on entry is not
    popped, and the device's end-pass operation has been called only if the
    exception came from end-pass itself or from a later call; in particular
    an exception in [before], begin-pass or [execute] leaves the pass
    without its end-pass. *)
Theorem render_stops_at_raise (w : World.t Ext) :
  (render Ext extern w).2 = None →
  ∃ pre c v,
    (render Ext extern w).1 = pre ++ [c] ∧
    extern c v = None ∧
    (popGpuMarker ∉ pre) ∧
    (endPass ∈ (render Ext extern w).1 →
     c = endPass ∨ (∃ g, c = invoke After g) ∨ c = popGpuMarker).
Proof.
  run_cases.
  all: try discriminate.
  all: intros _.
  all: match goal with
       | Hn : extern ?c ?v = None |- ∃ _ _ _, ?tr = _ ∧ _ =>
           exists (removelast tr), c, v
       end; simpl.
  all: split; [reflexivity |]; split; [assumption |].
  all: split; [intros Hin; not_among Hin |].
  all: first [ by left
             | by (right; left; eexists)
             | by (right; right)
             | intros Hin; exfalso; not_among Hin ].
Qed.

(** One [render] with outside code that returns the objects as it found
    them. *)
Lemma render_quiet (w : World.t Ext) :
  preserves extern (λ v, v) →
  is_Some (render Ext extern w).2 →
  render Ext extern w
  = (render_order (marker_label (World.pass w))
       (is_defined (RenderPass.renderTarget (World.pass w)))
       (RenderPass.before (World.pass w))
       (RenderPass.execute (World.pass w))
       (RenderPass.after (World.pass w)),
     Some ((), counted w)).
Proof.
  intros Hpres.
  unfold marker_label, render_order, slot_call, bracket, counted.
  run_cases.
  all: intros [? Hsome]; try discriminate Hsome.
  all: repeat match goal with
              | H : extern _ _ = Some _ |- _ => apply Hpres in H; subst
              end.
  all: congruence.
Qed.

End RenderFurther.

Lemma render_stops_at_raise_witness :
  let this := RenderPass.set_renderTarget null
                (RenderPass.constructor (Some 0%nat)) in
  let w := World.mk (GraphicsDevice.mk 1 0) this () in
  let extern := λ (c : call) (v : World.t ()),
                  match c with
                  | invoke Execute _ => None
                  | _ => Some v
                  end in
  ∃ pre c v,
    (render () extern w).1 = pre ++ [c] ∧
    extern c v = None ∧
    popGpuMarker ∉ pre.
Proof.
  intros this w extern.
  destruct (render_stops_at_raise extern w eq_refl)
    as (pre & c & v & Htr & Hraise & Hpop & _).
  by exists pre, c, v.
Defined.

(** X11. [render] itself writes nothing but the render-pass counter: when
    the outside code it calls returns the objects as it found them, a
    [render] that returns has made exactly the calls of the fixed order for
    the functions the pass holds, and leaves the objects as they were with
    the counter advanced by one. *)
Theorem render_only_counts {Ext : Type}
    (extern : call → World.t Ext → option (World.t Ext)) (w : World.t Ext) :
  preserves extern (λ v, v) →
  is_Some (render Ext extern w).2 →
  render Ext extern w
  = (render_order (marker_label (World.pass w))
       (is_defined (RenderPass.renderTarget (World.pass w)))
       (RenderPass.before (World.pass w))
       (RenderPass.execute (World.pass w))
       (RenderPass.after (World.pass w)),
     Some ((), World.mk
                 (GraphicsDevice.mk
                    (GraphicsDevice.samples (World.device w))
                    (GraphicsDevice.renderPassIndex (World.device w) + 1))
                 (World.pass w) (World.ext w))).
Proof. intros Hpres Hsome. by rewrite render_quiet. Qed.

Lemma render_only_counts_witness :
  let this := RenderPass.set_renderTarget null
                (RenderPass.constructor (Some 0%nat)) in
  let w := World.mk (GraphicsDevice.mk 4 41) this () in
  render () (λ _ v, Some v) w
  = ([pushGpuMarker "Pass:undefined"; debugCall; startPass;
      invoke Execute 0%nat; endPass; popGpuMarker],
     Some ((), World.mk (GraphicsDevice.mk 4 42) this ())).
Proof.
  intros this w.
  rewrite (render_only_counts (λ _ v, Some v) w).
  - reflexivity.
  - intros c v v' [= <-]. reflexivity.
  - vm_compute. by eexists.
Defined.

(** X12. Calls of [render] in a row, with outside code that never raises
    and returns the objects as it found them: [n] calls return, repeat the
    same calls [n] times, leave the pass as it was and advance the counter
    by [n]. *)
Theorem render_times_counts {Ext : Type}
    (extern : call → World.t Ext → option (World.t Ext)) (n : nat)
    (w : World.t Ext) :
  never_raises extern →
  preserves extern (λ v, v) →
  ∃ w',
    render_times extern n w
    = (mjoin (replicate n
                (render_order (marker_label (World.pass w))
                   (is_defined (RenderPass.renderTarget (World.pass w)))
                   (RenderPass.before (World.pass w))
                   (RenderPass.execute (World.pass w))
                   (RenderPass.after (World.pass w)))),
       Some ((), w')) ∧
    World.pass w' = World.pass w ∧
    World.ext w' = World.ext w ∧
    counter w' = counter w + Z.of_nat n.
Proof.
  intros Hnr Hpres. revert w. induction n as [|n IH]; intros w.
  - exists w. simpl. split; [done |]. split; [done |]. split; [done |]. lia.
  - cbn [render_times].
    rewrite (render_quiet extern w Hpres (render_returns extern w Hnr)).
    destruct (IH (counted w)) as (w' & -> & Hpass & Hext & Hctr).
    exists w'. split; [done |]. split; [done |]. split; [done |].
    rewrite Hctr. unfold counter, counted. simpl. lia.
Qed.

Lemma render_times_counts_witness :
  let this := RenderPass.constructor (Some 0%nat) in
  let w := World.mk (GraphicsDevice.mk 1 10) this () in
  ∃ w',
    (render_times (λ _ v, Some v) 3 w).2 = Some ((), w') ∧
    counter w' = 13.
Proof.
  intros this w.
  destruct (render_times_counts (λ _ v, Some v) 3 w)
    as (w' & Hrun & _ & _ & Hctr).
  - intros c v. by eexists.
  - intros c v v' [= <-]. reflexivity.
  - exists w'. rewrite Hrun. split; [reflexivity | exact Hctr].
Defined.

(** X13. [init] makes the pass a real pass, whatever its argument: a
    [render] of a pass that [init] has left, when it returns, has called the
    device's begin-pass once before [execute] and its end-pass once after
    it. *)
Theorem init_then_render_brackets {Ext : Type}
    (extern : call → World.t Ext → option (World.t Ext))
    (device : GraphicsDevice.t) (this : RenderPass.t)
    (renderTarget : ref RenderTarget.t) (w : World.t Ext) :
  RenderPass.init device this renderTarget = Some (World.pass w) →
  is_Some (render Ext extern w).2 →
  ∃ b e a,
    (render Ext extern w).1
    = [pushGpuMarker (marker_label (World.pass w)); debugCall]
      ++ slot_call Before b ++ [startPass]
      ++ slot_call Execute e ++ [endPass]
      ++ slot_call After a ++ [popGpuMarker].
Proof.
  rewrite init_eq. intros [= Hpass] Hsome.
  destruct (render_trace_shape extern w) as (b & e & a & _ & Heq).
  exists b, e, a. rewrite (Heq Hsome), <- Hpass. simpl.
  by destruct renderTarget.
Qed.

Lemma init_then_render_brackets_witness :
  ∃ this,
    RenderPass.init (GraphicsDevice.mk 1 0) (RenderPass.constructor None)
      undefined = Some this ∧
    (render () (λ _ v, Some v) (World.mk (GraphicsDevice.mk 1 0) this ())).1
    = [pushGpuMarker "Pass:undefined"; debugCall; startPass; endPass;
       popGpuMarker].
Proof.
  destruct (RenderPass.init (GraphicsDevice.mk 1 0) (RenderPass.constructor None)
              undefined) as [this|] eqn:Hinit; [| discriminate Hinit].
  exists this. split; [reflexivity |].
  destruct (init_then_render_brackets (λ _ v, Some v) (GraphicsDevice.mk 1 0)
              (RenderPass.constructor None) undefined
              (World.mk (GraphicsDevice.mk 1 0) this ()) Hinit)
    as (b & e & a & Htr).
  - vm_compute in Hinit. injection Hinit as <-. vm_compute. by eexists.
  - vm_compute in Hinit. injection Hinit as <-. vm_compute. reflexivity.
Defined.

(** ** [log] *)

(** The loop over the slots returns when the slots it reads exist, and then
    has traced one line per slot read, in slot order. *)
Lemma color_lines_returns (arr : list ColorAttachmentOps.t) (count : nat) :
  ∀ start,
    (start + count ≤ length arr)%nat →
    Log.color_lines arr start count
    = (imap (λ j colorOps,
               (TRACEID_RENDER_PASS_DETAIL,
                Log.color_line (start + j) colorOps))
         (take count (drop start arr)),
       Some ()).
Proof.
  induction count as [|count IH]; intros start Hlen; simpl.
  - done.
  - destruct (lookup_lt_is_Some_2 arr start) as [colorOps Hops]; [lia |].
    rewrite Hops, IH by lia.
    rewrite (drop_S _ _ _ Hops). simpl. rewrite Nat.add_0_r.
    do 2 f_equal. apply imap_ext. intros j o _. simpl.
    do 2 f_equal. lia.
Qed.

(** It raises when a slot it reads is missing. *)
Lemma color_lines_raises (arr : list ColorAttachmentOps.t) (count : nat) :
  ∀ start,
    (length arr < start + count)%nat →
    (start ≤ length arr)%nat →
    (Log.color_lines arr start count).2 = None.
Proof.
  induction count as [|count IH]; intros start Hlen Hstart; simpl.
  - lia.
  - destruct (arr !! start) as [colorOps|] eqn:Hops; [| done].
    apply lookup_lt_Some in Hops.
    specialize (IH (S start)).
    destruct (Log.color_lines arr (S start) count) as [out r]. simpl in *.
    apply IH; lia.
Qed.

(** X14. [log] raises exactly when tracing is enabled for one of its two
    channels and either the pass has no [name] or [colorArrayOps] has fewer
    slots than the number of colour attachments [log] derives from the back
    buffer; with both channels disabled it traces nothing and returns. *)
Theorem log_raises_iff (tracing : trace_channel → bool)
    (backBuffer : ref BackBuffer.t) (this : RenderPass.t) (index : Z) :
  ((Log.log tracing backBuffer this index).2 = None
   ↔ tracing TRACEID_RENDER_PASS || tracing TRACEID_RENDER_PASS_DETAIL = true
     ∧ (RenderPass.name this = None
        ∨ (length (RenderPass.colorArrayOps this)
           < Log.numColor (Log.rt backBuffer this))%nat)) ∧
  (tracing TRACEID_RENDER_PASS || tracing TRACEID_RENDER_PASS_DETAIL = false →
   Log.log tracing backBuffer this index = ([], Some ())).
Proof.
  unfold Log.log.
  destruct (tracing TRACEID_RENDER_PASS || tracing TRACEID_RENDER_PASS_DETAIL);
    simpl.
  2:{ split; [| done]. split; [done | by intros [? _]]. }
  split; [| done].
  destruct (RenderPass.name this) as [name|]; simpl.
  2:{ split; [intros _; split; [done | by left] | done]. }
  destruct (decide (Log.numColor (Log.rt backBuffer this)
                    ≤ length (RenderPass.colorArrayOps this))%nat) as [Hle | Hgt].
  - rewrite color_lines_returns by done. simpl.
    split; [done |]. intros [_ [? | ?]]; [done | lia].
  - pose proof (color_lines_raises (RenderPass.colorArrayOps this)
                  (Log.numColor (Log.rt backBuffer this)) 0%nat) as Hraise.
    destruct (Log.color_lines _ _ _) as [out [[]|]]; simpl in *.
    + discriminate Hraise; lia.
    + split; [| done]. intros _. split; [done |]. right. lia.
Qed.

Lemma log_raises_iff_witness :
  (Log.log (λ _, true) null (RenderPass.constructor None) 0).2 = None ∧
  Log.log (λ _, false) null (RenderPass.constructor None) 0 = ([], Some ()).
Proof.
  destruct (log_raises_iff (λ _, true) null (RenderPass.constructor None) 0)
    as [[_ Hraise] _].
  destruct (log_raises_iff (λ _, false) null (RenderPass.constructor None) 0)
    as [_ Hquiet].
  split.
  - apply Hraise. split; [reflexivity | by left].
  - apply Hquiet. reflexivity.
Defined.

(** X15. With tracing enabled, for a named pass that renders to the default
    framebuffer ([renderTarget] is [null]) of a device with a back buffer,
    and with a slot in [colorArrayOps] for every colour attachment [log]
    derives (the number of colour buffers of the back buffer; without them 1
    when one of the two implementation fields is set, else 0), [log]
    returns after exactly these lines: on the render-pass channel the header
    (index padded to 2, name padded to 20, target description padded to
    30); then on the detail channel, for each slot in order, the line of
    that slot with its index and its clear, store, resolve and mipmaps
    flags; then, when [depthStencilOps] is set, the depth line if the back
    buffer has depth followed by the stencil line if it has stencil. *)
Theorem log_lines (tracing : trace_channel → bool)
    (b : BackBuffer.t) (this : RenderPass.t) (index : Z) (name : string) :
  let n :=
    match BackBuffer._colorBuffers b with
    | Some bufs => length bufs
    | None =>
        if is_object (BackBufferImpl.assignedColorTexture (BackBuffer.impl b))
           || is_defined
                (BackBufferImpl.suppliedColorFramebuffer (BackBuffer.impl b))
        then 1%nat else 0%nat
    end in
  tracing TRACEID_RENDER_PASS || tracing TRACEID_RENDER_PASS_DETAIL = true →
  RenderPass.name this = Some name →
  RenderPass.renderTarget this = null →
  (n ≤ length (RenderPass.colorArrayOps this))%nat →
  Log.log tracing (obj b) this index
  = ((TRACEID_RENDER_PASS,
      padEnd 2 (pretty index) +:+ ": " +:+ padEnd 20 name
      +:+ padEnd 30
            (" RT: " +:+ BackBuffer.name b +:+ " "
             +:+ (if (0 <? n)%nat
                  then "[Color"
                       +:+ (if (1 <? n)%nat then " x " +:+ pretty n else "")
                       +:+ "]"
                  else "")
             +:+ (if BackBuffer.depth b then "[Depth]" else "")
             +:+ (if BackBuffer.stencil b then "[Stencil]" else "")
             +:+ (if 0 <? RenderPass.samples this
                  then " samples: " +:+ pretty (RenderPass.samples this)
                  else "")))
     :: imap (λ i colorOps,
                (TRACEID_RENDER_PASS_DETAIL,
                 "    color[" +:+ pretty i +:+ "]: "
                 +:+ (if ColorAttachmentOps.clear colorOps
                      then "clear" else "load")
                 +:+ "->"
                 +:+ (if ColorAttachmentOps.store colorOps
                      then "store" else "discard")
                 +:+ " "
                 +:+ (if ColorAttachmentOps.resolve colorOps
                      then "resolve " else "")
                 +:+ (if ColorAttachmentOps.mipmaps colorOps
                      then "mipmaps " else "")))
          (take n (RenderPass.colorArrayOps this))
     ++ match RenderPass.depthStencilOps this with
        | Some ds =>
            (if BackBuffer.depth b
             then [(TRACEID_RENDER_PASS_DETAIL,
                    "    depthOps: "
                    +:+ (if DepthStencilAttachmentOps.clearDepth ds
                         then "clear" else "load")
                    +:+ "->"
                    +:+ (if DepthStencilAttachmentOps.storeDepth ds
                         then "store" else "discard"))]
             else [])
            ++ (if BackBuffer.stencil b
                then [(TRACEID_RENDER_PASS_DETAIL,
                       "    stencOps: "
                       +:+ (if DepthStencilAttachmentOps.clearStencil ds
                            then "clear" else "load")
                       +:+ "->"
                       +:+ (if DepthStencilAttachmentOps.storeStencil ds
                            then "store" else "discard"))]
                else [])
        | None => []
        end,
     Some ()).
Proof.
  intros n Htr Hname Hrt Hlen. unfold Log.log.
  assert (Hrt' : Log.rt (obj b) this = obj b) by (unfold Log.rt; by rewrite Hrt).
  assert (Hn : Log.numColor (obj b) = n).
  { subst n. unfold Log.numColor, Log.isBackBuffer.
    by destruct (BackBuffer._colorBuffers b). }
  rewrite Htr, Hname, Hrt', Hn, color_lines_returns by done.
  rewrite drop_0. unfold Log.rtInfo, Log.depth_stencil_lines.
  rewrite Hn. simpl. reflexivity.
Qed.

Lemma log_lines_witness :
  let backBuffer :=
    BackBuffer.mk "backbuffer" None true true
      (BackBufferImpl.mk undefined null) in
  let this :=
    RenderPass.mk (Some "Forward"%string) null 1
      [ColorAttachmentOps.mk (Color.mk 0 0 0 1) true true false false]
      (Some (DepthStencilAttachmentOps.mk 1 0 true false false true))
      true true None None None in
  Log.log (λ _, true) (obj backBuffer) this 3
  = ([(TRACEID_RENDER_PASS,
       "3 : Forward              RT: backbuffer [Color][Depth][Stencil] samples: 1"%string);
      (TRACEID_RENDER_PASS_DETAIL, "    color[0]: clear->store "%string);
      (TRACEID_RENDER_PASS_DETAIL, "    depthOps: clear->discard"%string);
      (TRACEID_RENDER_PASS_DETAIL, "    stencOps: load->store"%string)],
     Some ()).
Proof.
  intros backBuffer this.
  rewrite (log_lines (λ _, true) backBuffer this 3 "Forward");
    [| reflexivity | reflexivity | reflexivity | vm_compute; lia].
  vm_compute. reflexivity.
Defined.

(** X16. [log] describes the back buffer only: for a pass whose
    [renderTarget] is not [null] (a concrete target, or none because [init]
    was not called) it writes the header line alone, naming the target
    NULL and listing no attachment, whatever the target, the back buffer
    and the slots of the pass are. *)
Theorem log_concrete_target_header_only (tracing : trace_channel → bool)
    (backBuffer : ref BackBuffer.t) (this : RenderPass.t) (index : Z)
    (name : string) :
  tracing TRACEID_RENDER_PASS || tracing TRACEID_RENDER_PASS_DETAIL = true →
  RenderPass.name this = Some name →
  RenderPass.renderTarget this ≠ null →
  Log.log tracing backBuffer this index
  = ([(TRACEID_RENDER_PASS,
       padEnd 2 (pretty index) +:+ ": " +:+ padEnd 20 name
       +:+ padEnd 30
             (" RT: NULL "
              +:+ (if 0 <? RenderPass.samples this
                   then " samples: " +:+ pretty (RenderPass.samples this)
                   else "")))],
     Some ()).
Proof.
  intros Htr Hname Hrt. unfold Log.log. rewrite Htr, Hname.
  assert (Hnull : Log.rt backBuffer this = null).
  { unfold Log.rt. by destruct (RenderPass.renderTarget this). }
  rewrite Hnull. unfold Log.depth_stencil_lines. simpl.
  by destruct (RenderPass.depthStencilOps this).
Qed.

Lemma log_concrete_target_header_only_witness :
  let target :=
    RenderTarget.mk 4 (Some [Texture.mk true; Texture.mk false]) in
  let this :=
    RenderPass.mk (Some "Shadow"%string) (obj target) 4
      [allocated_ops 4 true; allocated_ops 4 false]
      (Some DepthStencilAttachmentOps.new) true true None None None in
  Log.log (λ _, true) undefined this 12
  = ([(TRACEID_RENDER_PASS,
       "12: Shadow               RT: NULL  samples: 4         "%string)],
     Some ()).
Proof.
  intros target this.
  rewrite (log_concrete_target_header_only (λ _, true) undefined this 12
             "Shadow"); [| reflexivity | reflexivity | discriminate].
  vm_compute. reflexivity.
Defined.

(** ** [render] with the debug trace running *)

(** X17. Where the debug hook of [render] runs the function it is given
    (the call of [log] with the device's counter) and tracing is enabled, a
    [render] of a pass without [name] raises at the hook: after the marker
    push and before [before], the device's begin-pass and [execute], so no
    function of the pass is called and the marker is left pushed.  This is
    so for every [renderTarget], set or not. *)
Theorem render_debug_trace_needs_name {Ext : Type}
    (extern : call → World.t Ext → option (World.t Ext))
    (tracing : trace_channel → bool) (backBuffer : ref BackBuffer.t)
    (w : World.t Ext) :
  (∀ v, extern debugCall v
        = match (Log.log tracing backBuffer (World.pass v) (counter v)).2 with
          | Some _ => Some v
          | None => None
          end) →
  (∀ label v, extern (pushGpuMarker label) v = Some v) →
  tracing TRACEID_RENDER_PASS || tracing TRACEID_RENDER_PASS_DETAIL = true →
  RenderPass.name (World.pass w) = None →
  render Ext extern w = ([pushGpuMarker "Pass:undefined"; debugCall], None).
Proof.
  intros Hdebug Hpush Htr Hname.
  unfold render, mbind, action_bind, mret, action_ret, reads, update,
    external, optional_call, when.
  rewrite Hname. cbn [template]. rewrite Hpush. simpl.
  rewrite Hdebug. unfold Log.log. rewrite Htr, Hname. reflexivity.
Qed.

Lemma render_debug_trace_needs_name_witness :
  let w := World.mk (GraphicsDevice.mk 1 0)
             (RenderPass.constructor (Some 0%nat)) () in
  let extern := λ (c : call) (v : World.t ()),
    match c with
    | debugCall =>
        match (Log.log (λ _, true) null (World.pass v) (counter v)).2 with
        | Some _ => Some v
        | None => None
        end
    | _ => Some v
    end in
  render () extern w = ([pushGpuMarker "Pass:undefined"; debugCall], None).
Proof.
  intros w extern.
  apply (render_debug_trace_needs_name extern (λ _, true) null w);
    reflexivity.
Defined.
